(** * The paginated user list of the workshop application

    A shallow embedding of the optimised [GET /api/users] route handler
    (the TypeScript handler with [DEFAULT_LIMIT]/[MAX_LIMIT] and the SQL text
    it sends to PostgreSQL) and of the pieces of the legacy handler that the
    optimised one replaces.

    - Tables are lists of rows; a nullable column is an [option].
    - The SQL text is embedded clause by clause: the three CTEs, the chain of
      [LEFT JOIN]s, the [WHERE] predicate in three-valued logic, the
      [SELECT] list, [ORDER BY], [LIMIT]/[OFFSET].
    - [ORDER BY u.created_at DESC] fixes the order of the result only up to
      rows with equal [created_at]; the embedding therefore describes the
      admissible results as a relation, and gives one executable executor
      (a stable merge sort over the scan order) that inhabits it.
    - JavaScript numbers are embedded as [number]: [NaN], the infinities
      and the finite numbers the handler meets, which are all integers;
      [parseInt], subtraction and multiplication round to 53 significant
      bits. An offset beyond PostgreSQL's [bigint] is rejected by the store
      and answered with status 500. Row counts reach the handler through
      [parseInt] and are exact up to [Number.MAX_SAFE_INTEGER]; the
      embedding admits no response over a result with more rows.
    - A text is its UTF-8 encoding.
    - The record type [User.t] leaves out the JSON-path projections; the
      four projections computed in JavaScript and the page summary are
      embedded as functions of their own further down, next to the legacy
      subqueries, the stand-alone SQL file, the single-profile query, the
      index script's test count, the two versions of the clean-up script
      and the integrity check of the clean-up workflow. The SQL column
      [instagram_handle] is not embedded. *)

From stdpp Require Import base decidable option list sorting strings gmap.
From Stdlib Require Import ZArith Lia Ascii.

Local Open Scope Z_scope.

(** ** Data model *)

(** The schema is not part of the sources. Columns that the queries join,
    group or order on ([id], [user_id], [created_at], [action]) are taken
    non-null; [users.auth_id] and every column the queries test for null or
    wrap in [COALESCE] are nullable. *)

(** A timestamp is a number of seconds; an interval likewise. *)
Definition timestamp := Z.

#[warnings="-register-all"] Inductive json :=
  | JNull
  | JBool (b : bool)
  | JNum (n : Z)
  | JStr (s : string)
  | JArr (items : list json)
  | JObj (fields : list (string * json)).

Module Users.
Record t := {
  id : Z;
  username : option string;
  full_name : option string;
  birth_date : option timestamp;
  bio : option string;
  long_bio : option string;
  profile_json : option json;
  address : option string;
  phone_number : option string;
  created_at : timestamp;
  updated_at : option timestamp;
  auth_id : option Z
}.
End Users.

Module Auth.
Record t := { id : Z; email : option string }.
End Auth.

Module UserRoles.
Record t := { user_id : Z; role : option string }.
End UserRoles.

Module UserDivisions.
Record t := { user_id : Z; division_name : option string }.
End UserDivisions.

Module UserLogs.
Record t := { user_id : Z; action : string; created_at : timestamp }.
End UserLogs.

Record database := {
  users : list Users.t;
  auth : list Auth.t;
  user_roles : list UserRoles.t;
  user_divisions : list UserDivisions.t;
  user_logs : list UserLogs.t
}.

(** ** SQL building blocks *)

(** Three-valued logic: [None] is SQL's unknown. *)
Definition sql_bool := option bool.

Definition sql_or (a b : sql_bool) : sql_bool :=
  match a, b with
  | Some true, _ | _, Some true => Some true
  | Some false, Some false => Some false
  | _, _ => None
  end.

Definition sql_eq {A} `{EqDecision A} (a b : option A) : sql_bool :=
  match a, b with
  | Some x, Some y => Some (bool_decide (x = y))
  | _, _ => None
  end.

Definition sql_is_null {A} (a : option A) : sql_bool := Some (bool_decide (a = None :> option A)).

(** A [WHERE] clause keeps the rows on which the predicate is true. *)
Definition holds (c : sql_bool) : bool :=
  match c with Some true => true | _ => false end.

(** [a || b] on text: null as soon as one side is null. *)
Definition sql_concat (a b : option string) : option string :=
  match a, b with
  | Some x, Some y => Some (x +:+ y)
  | _, _ => None
  end.

Definition COALESCE {A} (a : option A) (d : A) : A := default d a.

Definition NULLIF {A} `{EqDecision A} (a : option A) (v : A) : option A :=
  match a with
  | Some x => if decide (x = v) then None else Some x
  | None => None
  end.

(** [(e IS NOT NULL)::int] *)
Definition not_null_int {A} (a : option A) : Z :=
  match a with Some _ => 1 | None => 0 end.

(** [COUNT( * )] and [COUNT( * ) FILTER (WHERE p)] over a group. *)
Definition COUNT {A} (g : list A) : Z := Z.of_nat (length g).

Definition COUNT_FILTER {A} (P : A → Prop) `{∀ x, Decision (P x)} (g : list A) : Z :=
  Z.of_nat (length (filter P g)).

(** The right-hand side of a [LEFT JOIN] for one left row: the matching
    rows, or a single all-null row when there is none. *)
Definition left_matches {B} (ms : list B) : list (option B) :=
  match ms with
  | [] => [None]
  | _ => Some <$> ms
  end.

(** ** The three CTEs *)

Definition thirty_days : Z := 30 * 86400.

Module Agg.
Record t := {
  user_id : Z;
  log_count : Z;
  login_count : Z;
  update_count : Z;
  recent_logs : Z
}.
End Agg.

(** [user_aggregates]: one row per [user_id] present in [user_logs]. *)
Definition user_aggregates (db : database) (now : timestamp) : list Agg.t :=
  (λ uid,
     let g := filter (λ ul, UserLogs.user_id ul = uid) (user_logs db) in
     {| Agg.user_id := uid;
        Agg.log_count := COUNT g;
        Agg.login_count := COUNT_FILTER (λ ul, UserLogs.action ul = "login") g;
        Agg.update_count := COUNT_FILTER (λ ul, UserLogs.action ul = "update_profile") g;
        Agg.recent_logs :=
          COUNT_FILTER (λ ul, UserLogs.created_at ul > now - thirty_days) g |})
  <$> remove_dups (UserLogs.user_id <$> user_logs db).

(** [total_users_count]: a single row. *)
Definition total_users_count (db : database) : list Z := [COUNT (users db)].

Module Rank.
Record t := { id : Z; newer_users : Z }.
End Rank.

(** [user_creation_rank]. [COUNT( * ) OVER (ORDER BY created_at DESC)] has no
    frame clause, so the frame is PostgreSQL's default one, [RANGE BETWEEN
    UNBOUNDED PRECEDING AND CURRENT ROW]: every row that sorts before the
    current row together with the peers of the current row, that is, every
    row whose [created_at] is at least the current row's. *)
Definition window_count_created_desc (db : database) (u : Users.t) : Z :=
  COUNT (filter (λ v, Users.created_at u ≤ Users.created_at v) (users db)).

Definition user_creation_rank (db : database) : list Rank.t :=
  (λ u, {| Rank.id := Users.id u;
           Rank.newer_users := window_count_created_desc db u - 1 |})
  <$> users db.

(** The legacy handler's column of the same name, a correlated subquery:
    [(SELECT COUNT( * ) FROM users WHERE created_at > u.created_at)]. *)
Definition legacy_newer_users (db : database) (u : Users.t) : Z :=
  COUNT (filter (λ v, Users.created_at v > Users.created_at u) (users db)).

(** ** The main query *)

(** One row of the [FROM] clause: the [users] row with what each join
    attached to it. *)
Module J.
Record t := {
  u : Users.t;
  a : option Auth.t;
  ur : option UserRoles.t;
  ud : option UserDivisions.t;
  ua : option Agg.t;
  ucr : option Rank.t;
  tc : Z
}.
End J.

(** Every [ON] condition compares a column of [u] with a column of the
    joined table, so the chain of left joins is a nested loop under [u]. *)
Definition joins (db : database) (now : timestamp) (u : Users.t) : list J.t :=
  a ← left_matches (filter (λ a, Users.auth_id u = Some (Auth.id a)) (auth db));
  ur ← left_matches (filter (λ ur, Users.id u = UserRoles.user_id ur) (user_roles db));
  ud ← left_matches
         (filter (λ ud, Users.id u = UserDivisions.user_id ud) (user_divisions db));
  ua ← left_matches (filter (λ ua, Users.id u = Agg.user_id ua) (user_aggregates db now));
  ucr ← left_matches (filter (λ ucr, Users.id u = Rank.id ucr) (user_creation_rank db));
  tc ← total_users_count db;
  [ {| J.u := u; J.a := a; J.ur := ur; J.ud := ud; J.ua := ua; J.ucr := ucr; J.tc := tc |} ].

Definition from_clause (db : database) (now : timestamp) : list J.t :=
  u ← users db; joins db now u.

(** [($1::text IS NULL OR $1 = 'all' OR ud.division_name = $1)] *)
Definition division_predicate (p1 division_name : option string) : sql_bool :=
  sql_or (sql_or (sql_is_null p1) (sql_eq p1 (Some "all"))) (sql_eq division_name p1).

Definition where_clause (p1 : option string) (j : J.t) : sql_bool :=
  division_predicate p1 (J.ud j ≫= UserDivisions.division_name).

Module Row.
Record t := {
  id : Z;
  username : option string;
  full_name : option string;
  birth_date : option timestamp;
  bio : option string;
  long_bio : option string;
  profile_json : option json;
  address : option string;
  phone_number : option string;
  created_at : timestamp;
  updated_at : option timestamp;
  email : option string;
  role : option string;
  division_name : option string;
  total_users : Z;
  newer_users : option Z;
  log_count : Z;
  role_count : Z;
  division_count : Z;
  login_count : Z;
  update_count : Z;
  recent_logs : Z;
  display_name : option string;
  bio_display : string;
  days_since_created : Z;
  is_active : bool;
  is_senior : bool;
  profile_completeness : Z
}.
End Row.

Definition profile_completeness_case (u : Users.t) : Z :=
  let present :=
    not_null_int (Users.bio u) + not_null_int (Users.address u) +
    not_null_int (Users.phone_number u) + not_null_int (Users.profile_json u) in
  if decide (is_Some (Users.bio u) ∧ is_Some (Users.address u) ∧
             is_Some (Users.phone_number u) ∧ is_Some (Users.profile_json u))
  then 100
  else if decide (present = 3) then 75
  else if decide (present = 2) then 50
  else if decide (present = 1) then 25
  else 0.

Definition select_list (now : timestamp) (j : J.t) : Row.t :=
  let u := J.u j in
  let role := J.ur j ≫= UserRoles.role in
  let log_count := COALESCE (Agg.log_count <$> J.ua j) 0 in
  {| Row.id := Users.id u;
     Row.username := Users.username u;
     Row.full_name := Users.full_name u;
     Row.birth_date := Users.birth_date u;
     Row.bio := Users.bio u;
     Row.long_bio := Users.long_bio u;
     Row.profile_json := Users.profile_json u;
     Row.address := Users.address u;
     Row.phone_number := Users.phone_number u;
     Row.created_at := Users.created_at u;
     Row.updated_at := Users.updated_at u;
     Row.email := J.a j ≫= Auth.email;
     Row.role := role;
     Row.division_name := J.ud j ≫= UserDivisions.division_name;
     Row.total_users := J.tc j;
     Row.newer_users := Rank.newer_users <$> J.ucr j;
     Row.log_count := log_count;
     Row.role_count := 1;
     Row.division_count := 1;
     Row.login_count := COALESCE (Agg.login_count <$> J.ua j) 0;
     Row.update_count := COALESCE (Agg.update_count <$> J.ua j) 0;
     Row.recent_logs := COALESCE (Agg.recent_logs <$> J.ua j) 0;
     Row.display_name :=
       sql_concat
         (sql_concat (sql_concat (Users.full_name u) (Some " ("))
                     (Some (COALESCE role "no role")))
         (Some ")");
     Row.bio_display := COALESCE (NULLIF (Users.bio u) "") "No bio available";
     Row.days_since_created := Z.quot (now - Users.created_at u) 86400;
     Row.is_active := bool_decide (log_count > 5);
     Row.is_senior :=
       holds (sql_or (sql_eq role (Some "admin")) (sql_eq role (Some "moderator")));
     Row.profile_completeness := profile_completeness_case u |}.

(** [SELECT ... FROM ... WHERE ...], before ordering. *)
Definition selected (db : database) (now : timestamp) (p1 : option string) : list Row.t :=
  select_list now <$> filter (λ j, holds (where_clause p1 j)) (from_clause db now).

(** [ORDER BY u.created_at DESC]: the sort key is the only constraint. *)
Definition newest_first (r1 r2 : Row.t) : Prop :=
  Row.created_at r2 ≤ Row.created_at r1.

#[global] Instance newest_first_dec : RelDecision newest_first.
Proof. intros r1 r2. unfold newest_first. apply _. Defined.

Definition order_by_created_at_desc (input output : list Row.t) : Prop :=
  output ≡ₚ input ∧ Sorted newest_first output.

(** [LIMIT $2 OFFSET $3] *)
Definition limit_offset {A} (limit offset : Z) (rows : list A) : list A :=
  take (Z.to_nat limit) (drop (Z.to_nat offset) rows).

(** The admissible results of the main query. *)
Definition query (db : database) (now : timestamp)
    (p1 : option string) (limit offset : Z) (result : list Row.t) : Prop :=
  ∃ sorted,
    order_by_created_at_desc (selected db now p1) sorted ∧
    result = limit_offset limit offset sorted.

(** One executor: a stable merge sort of the rows in scan order. *)
Definition query_exec (db : database) (now : timestamp)
    (p1 : option string) (limit offset : Z) : list Row.t :=
  limit_offset limit offset (merge_sort newest_first (selected db now p1)).

(** ** The count query *)

Definition count_joins (db : database) (u : Users.t)
    : list (Users.t * option UserDivisions.t) :=
  ud ← left_matches
         (filter (λ ud, Users.id u = UserDivisions.user_id ud) (user_divisions db));
  [ (u, ud) ].

Definition count_from (db : database) : list (Users.t * option UserDivisions.t) :=
  u ← users db; count_joins db u.

Definition countQuery (db : database) (p1 : option string) : Z :=
  COUNT (filter (λ r, holds (division_predicate p1 (r.2 ≫= UserDivisions.division_name)))
                (count_from db)).

(** ** The route handler *)

(** [Number.MAX_SAFE_INTEGER]: every integer up to it is a JavaScript
    number. *)
Definition MAX_SAFE_INTEGER : Z := 2 ^ 53 - 1.

(** The largest [bigint] of PostgreSQL, the type of [LIMIT] and [OFFSET]. *)
Definition MAX_BIGINT : Z := 2 ^ 63 - 1.

(** A JavaScript number as the handler meets it: [NaN], an infinity, or a
    finite number, which is an integer everywhere in the handler. *)
Inductive number := NaN | Num (z : Z) | Infinity | NegInfinity.

(** The number nearest to an integer: a significand of 53 bits, a tie goes
    to the even significand, and what lies beyond the largest finite number
    becomes an infinity. *)
Definition round_double (z : Z) : number :=
  let a := Z.abs z in
  if decide (a ≤ MAX_SAFE_INTEGER) then Num z
  else
    let e := Z.log2 a - 52 in
    let q := a / 2 ^ e in
    let r := a mod 2 ^ e in
    let half := 2 ^ (e - 1) in
    let m := if decide (r < half) then q
             else if decide (half < r) then q + 1
             else if Z.even q then q else q + 1 in
    if decide (2 ^ 1024 ≤ m * 2 ^ e)
    then if decide (z < 0) then NegInfinity else Infinity
    else Num (Z.sgn z * (m * 2 ^ e)).

Definition number_sgn (a : number) : Z :=
  match a with
  | NaN => 0
  | Num x => Z.sgn x
  | Infinity => 1
  | NegInfinity => -1
  end.

Definition Math_max (a b : number) : number :=
  match a, b with
  | NaN, _ | _, NaN => NaN
  | Infinity, _ | _, Infinity => Infinity
  | NegInfinity, x | x, NegInfinity => x
  | Num x, Num y => Num (Z.max x y)
  end.

Definition Math_min (a b : number) : number :=
  match a, b with
  | NaN, _ | _, NaN => NaN
  | NegInfinity, _ | _, NegInfinity => NegInfinity
  | Infinity, x | x, Infinity => x
  | Num x, Num y => Num (Z.min x y)
  end.

(** [a - b] and [a * b]: the exact result, rounded. *)
Definition number_sub (a b : number) : number :=
  match a, b with
  | NaN, _ | _, NaN => NaN
  | Num x, Num y => round_double (x - y)
  | Infinity, Infinity | NegInfinity, NegInfinity => NaN
  | Infinity, _ | _, NegInfinity => Infinity
  | NegInfinity, _ | _, Infinity => NegInfinity
  end.

Definition number_mul (a b : number) : number :=
  match a, b with
  | NaN, _ | _, NaN => NaN
  | Num x, Num y => round_double (x * y)
  | _, _ =>
      let s := number_sgn a * number_sgn b in
      if decide (s = 0) then NaN
      else if decide (0 < s) then Infinity else NegInfinity
  end.

(** [Math.ceil(a / b)] for a positive divisor, the only case the handler
    reaches: [limit] is at least 1 whenever it is a number. *)
Definition Math_ceil_div (a b : Z) : Z := - ((- a) / b).

(** [parseInt(s, 10)]: leading white space is skipped, then an optional
    sign, then the longest run of decimal digits; no digit gives [NaN], and
    the value of the digits is rounded to a number. A text is its UTF-8
    encoding; white space is JavaScript's set of white space and line
    terminators: U+0009 to U+000D, U+0020, U+00A0, U+1680, U+2000 to
    U+200A, U+2028, U+2029, U+202F, U+205F, U+3000 and U+FEFF. *)
Definition is_white_space (bytes : list N) : bool :=
  match bytes with
  | [n] => bool_decide (n = 32 ∨ (9 ≤ n ∧ n ≤ 13))%N
  | [n1; n2] => bool_decide (n1 = 194 ∧ n2 = 160)%N
  | [n1; n2; n3] =>
      bool_decide ((n1 = 225 ∧ n2 = 154 ∧ n3 = 128) ∨
                   (n1 = 226 ∧ n2 = 128 ∧ 128 ≤ n3 ∧ n3 ≤ 138) ∨
                   (n1 = 226 ∧ n2 = 128 ∧ (n3 = 168 ∨ n3 = 169 ∨ n3 = 175)) ∨
                   (n1 = 226 ∧ n2 = 129 ∧ n3 = 159) ∨
                   (n1 = 227 ∧ n2 = 128 ∧ n3 = 128) ∨
                   (n1 = 239 ∧ n2 = 187 ∧ n3 = 191))%N
  | _ => false
  end.

Fixpoint trim_start (s : string) : string :=
  match s with
  | String c1 s1 =>
      if is_white_space [N_of_ascii c1] then trim_start s1
      else
        match s1 with
        | String c2 s2 =>
            if is_white_space [N_of_ascii c1; N_of_ascii c2] then trim_start s2
            else
              match s2 with
              | String c3 s3 =>
                  if is_white_space [N_of_ascii c1; N_of_ascii c2; N_of_ascii c3]
                  then trim_start s3
                  else s
              | EmptyString => s
              end
        | EmptyString => s
        end
  | EmptyString => s
  end.

Definition digit_value (c : ascii) : option Z :=
  let n := Z.of_N (N_of_ascii c) in
  if decide (48 ≤ n ∧ n ≤ 57) then Some (n - 48) else None.

Fixpoint digits (s : string) (acc : option Z) : option Z :=
  match s with
  | String c s' =>
      match digit_value c with
      | Some d => digits s' (Some (10 * default 0 acc + d))
      | None => acc
      end
  | EmptyString => acc
  end.

Definition parseInt (s : string) : number :=
  let s := trim_start s in
  let '(sign, s) :=
    match s with
    | String "-" s' => (-1, s')
    | String "+" s' => (1, s')
    | _ => (1, s)
    end in
  match digits s None with
  | Some n => round_double (sign * n)
  | None => NaN
  end.

(** [v || d] for a value that is a string or [null]. *)
Definition or_default (v : option string) (d : string) : string :=
  match v with
  | Some s => if decide (s = "") then d else s
  | None => d
  end.

(** [!!v] *)
Definition truthy_string (v : option string) : bool :=
  match v with Some s => bool_decide (s ≠ "") | None => false end.

Definition truthy_json (v : option json) : bool :=
  match v with
  | None | Some JNull => false
  | Some (JBool b) => b
  | Some (JNum n) => bool_decide (n ≠ 0)
  | Some (JStr s) => bool_decide (s ≠ "")
  | Some (JArr _) | Some (JObj _) => true
  end.

Definition DEFAULT_LIMIT : Z := 50.
Definition MAX_LIMIT : Z := 200.

(** What [url.searchParams.get] returns for the three keys the handler reads. *)
Module SearchParams.
Record t := {
  division : option string;
  page : option string;
  limit : option string
}.
End SearchParams.

Module Params.
Record t := {
  divisionFilter : option string;
  page : number;
  limit : number;
  offset : number
}.
End Params.

(** [String(DEFAULT_LIMIT)] is ["50"]. *)
Definition parse_params (q : SearchParams.t) : Params.t :=
  let page := Math_max (Num 1) (parseInt (or_default (SearchParams.page q) "1")) in
  let limit :=
    Math_min (Num MAX_LIMIT)
             (Math_max (Num 1) (parseInt (or_default (SearchParams.limit q) "50"))) in
  {| Params.divisionFilter := SearchParams.division q;
     Params.page := page;
     Params.limit := limit;
     Params.offset := number_mul (number_sub page (Num 1)) limit |}.

(** The objects of the [users] array. PostgreSQL's [bigint] columns reach
    JavaScript as decimal strings; the embedding keeps their integer value. *)
Module User.
Record t := {
  id : Z;
  username : option string;
  fullName : option string;
  email : option string;
  birthDate : option timestamp;
  bio : option string;
  longBio : option string;
  profileJson : option json;
  address : option string;
  phoneNumber : option string;
  createdAt : timestamp;
  updatedAt : option timestamp;
  role : option string;
  division : option string;
  displayName : option string;
  bioDisplay : string;
  totalUsers : Z;
  newerUsers : option Z;
  logCount : Z;
  roleCount : Z;
  divisionCount : Z;
  loginCount : Z;
  updateCount : Z;
  recentLogs : Z;
  daysSinceCreated : Z;
  isActive : bool;
  isSenior : bool;
  hasProfile : bool;
  hasBio : bool;
  hasAddress : bool;
  hasPhone : bool;
  profileCompleteness : Z
}.
End User.

(** A [json] column as the driver hands it to JavaScript: the document
    [null] is the value [null], as SQL [NULL] is. *)
Definition json_value (column : option json) : option json :=
  match column with
  | Some JNull => None
  | _ => column
  end.

Definition to_user (user : Row.t) : User.t :=
  {| User.id := Row.id user;
     User.username := Row.username user;
     User.fullName := Row.full_name user;
     User.email := Row.email user;
     User.birthDate := Row.birth_date user;
     User.bio := Row.bio user;
     User.longBio := Row.long_bio user;
     User.profileJson := json_value (Row.profile_json user);
     User.address := Row.address user;
     User.phoneNumber := Row.phone_number user;
     User.createdAt := Row.created_at user;
     User.updatedAt := Row.updated_at user;
     User.role := Row.role user;
     User.division := Row.division_name user;
     User.displayName := Row.display_name user;
     User.bioDisplay := Row.bio_display user;
     User.totalUsers := Row.total_users user;
     User.newerUsers := Row.newer_users user;
     User.logCount := Row.log_count user;
     User.roleCount := Row.role_count user;
     User.divisionCount := Row.division_count user;
     User.loginCount := Row.login_count user;
     User.updateCount := Row.update_count user;
     User.recentLogs := Row.recent_logs user;
     User.daysSinceCreated := Row.days_since_created user;
     User.isActive := Row.is_active user;
     User.isSenior := Row.is_senior user;
     User.hasProfile := truthy_json (json_value (Row.profile_json user));
     User.hasBio := truthy_string (Row.bio user);
     User.hasAddress := truthy_string (Row.address user);
     User.hasPhone := truthy_string (Row.phone_number user);
     User.profileCompleteness := Row.profile_completeness user |}.

Module Pagination.
Record t := {
  page : Z;
  limit : Z;
  totalPages : Z;
  totalCount : Z;
  hasNextPage : bool;
  hasPreviousPage : bool
}.
End Pagination.

Module Body.
Record t := {
  users : list User.t;
  pagination : Pagination.t;
  filteredBy : string;
  message : string
}.
End Body.

Inductive response :=
  | Ok200 (body : Body.t)
  | Err500.

(** The success path after both queries have answered. *)
Definition respond (divisionFilter : option string) (page limit : Z)
    (rows : list Row.t) (totalCount : Z) : Body.t :=
  let totalPages := Math_ceil_div totalCount limit in
  {| Body.users := to_user <$> rows;
     Body.pagination :=
       {| Pagination.page := page;
          Pagination.limit := limit;
          Pagination.totalPages := totalPages;
          Pagination.totalCount := totalCount;
          Pagination.hasNextPage := bool_decide (page < totalPages);
          Pagination.hasPreviousPage := bool_decide (page > 1) |};
     Body.filteredBy := or_default divisionFilter "all";
     Body.message := "Users retrieved successfully" |}.

(** The two row counts that reach JavaScript: [parseInt] reads the count
    query's answer, and [OFFSET] is measured against the rows of the main
    query. Up to [MAX_SAFE_INTEGER] rows the handler's arithmetic on them is
    exact. *)
Definition within_safe_integers (db : database) (now : timestamp)
    (p1 : option string) : Prop :=
  COUNT (selected db now p1) ≤ MAX_SAFE_INTEGER ∧ countQuery db p1 ≤ MAX_SAFE_INTEGER.

#[global] Instance within_safe_integers_dec db now p1 :
  Decision (within_safe_integers db now p1).
Proof. unfold within_safe_integers. apply _. Defined.

(** The handler on parsed parameters. A parameter that is not a finite
    number reaches PostgreSQL as the text [NaN] or [Infinity], and an offset
    above [MAX_BIGINT] as a number out of the range of [bigint]: the store
    rejects the query and the rejected promise lands in the [catch] block.
    The embedding describes the responses over results of at most
    [MAX_SAFE_INTEGER] rows and admits none over larger ones. *)
Definition handle (db : database) (now : timestamp) (p : Params.t)
    (resp : response) : Prop :=
  match Params.page p, Params.limit p, Params.offset p with
  | Num page, Num limit, Num offset =>
      if decide (offset ≤ MAX_BIGINT) then
        within_safe_integers db now (Params.divisionFilter p) ∧
        ∃ rows,
          query db now (Params.divisionFilter p) limit offset rows ∧
          resp = Ok200 (respond (Params.divisionFilter p) page limit rows
                                (countQuery db (Params.divisionFilter p)))
      else resp = Err500
  | _, _, _ => resp = Err500
  end.

Definition GET (db : database) (now : timestamp) (q : SearchParams.t)
    (resp : response) : Prop :=
  handle db now (parse_params q) resp.

(** The handler run with the executor [query_exec]. *)
Definition handle_exec (db : database) (now : timestamp) (p : Params.t) : response :=
  match Params.page p, Params.limit p, Params.offset p with
  | Num page, Num limit, Num offset =>
      if decide (offset ≤ MAX_BIGINT) then
        Ok200 (respond (Params.divisionFilter p) page limit
                       (query_exec db now (Params.divisionFilter p) limit offset)
                       (countQuery db (Params.divisionFilter p)))
      else Err500
  | _, _, _ => Err500
  end.

Definition GET_exec (db : database) (now : timestamp) (q : SearchParams.t) : response :=
  handle_exec db now (parse_params q).

(** The legacy handler's completeness score, computed in JavaScript from
    the truthiness of the four fields:
    [([!!bio, !!address, !!phone_number, !!profile_json].filter(Boolean).length / 4) * 100]. *)
Definition legacy_profileCompleteness (user : Row.t) : Z :=
  Z.of_nat (length (filter (λ b : bool, b)
    [ truthy_string (Row.bio user);
      truthy_string (Row.address user);
      truthy_string (Row.phone_number user);
      truthy_json (Row.profile_json user) ])) * 100 / 4.

(** ** Vocabulary of the properties *)

(** A profile matches the filter when there is no filter, when the filter
    is the word [all], or when one of the profile's division rows carries
    the filter's name. *)
Definition profile_matches (db : database) (p1 : option string) (u : Users.t) : Prop :=
  p1 = None ∨ p1 = Some "all" ∨
  Exists (λ ud, UserDivisions.user_id ud = Users.id u ∧
                UserDivisions.division_name ud = p1 ∧ is_Some p1)
         (user_divisions db).

#[global] Instance profile_matches_dec db p1 u : Decision (profile_matches db p1 u).
Proof. unfold profile_matches. apply _. Defined.

(** The profile has no activity log entry. *)
Definition no_activity (db : database) (u : Users.t) : Prop :=
  Forall (λ ul, UserLogs.user_id ul ≠ Users.id u) (user_logs db).

#[global] Instance no_activity_dec db u : Decision (no_activity db u).
Proof. unfold no_activity. apply _. Defined.

(** The keys of the schema: [users.id] and [auth.id] identify their rows. *)
Definition primary_keys (db : database) : Prop :=
  NoDup (Users.id <$> users db) ∧ NoDup (Auth.id <$> auth db).

(** The cardinality the queries rely on: at most one role row and at most
    one division row per profile. *)
Definition at_most_one_satellite (db : database) : Prop :=
  NoDup (UserRoles.user_id <$> user_roles db) ∧
  NoDup (UserDivisions.user_id <$> user_divisions db).

#[global] Instance primary_keys_dec db : Decision (primary_keys db).
Proof. unfold primary_keys. apply _. Defined.

#[global] Instance at_most_one_satellite_dec db : Decision (at_most_one_satellite db).
Proof. unfold at_most_one_satellite. apply _. Defined.

(** The parameters of a request for page [page] with [limit] rows per page,
    as [parse_params] produces them from numeric text. *)
Definition params_of (divisionFilter : option string) (page limit : Z) : Params.t :=
  {| Params.divisionFilter := divisionFilter;
     Params.page := Num page;
     Params.limit := Num limit;
     Params.offset := Num ((page - 1) * limit) |}.

(** Newest first, on the records of a response. *)
Definition by_creation_desc (U1 U2 : User.t) : Prop :=
  User.createdAt U2 ≤ User.createdAt U1.

(** How many of bio, address, phone number and profile document are
    non-null on a record. *)
Definition non_null_count (U : User.t) : nat :=
  length (filter (λ b : bool, b)
    [ bool_decide (is_Some (User.bio U));
      bool_decide (is_Some (User.address U));
      bool_decide (is_Some (User.phoneNumber U));
      bool_decide (is_Some (User.profileJson U)) ]).

(** How many of bio, address, phone number and profile document are
    non-null in a row of [users]. *)
Definition stored_non_null_count (u : Users.t) : nat :=
  length (filter (λ b : bool, b)
    [ bool_decide (is_Some (Users.bio u));
      bool_decide (is_Some (Users.address u));
      bool_decide (is_Some (Users.phone_number u));
      bool_decide (is_Some (Users.profile_json u)) ]).

(** Newest first, on the rows of [users]. *)
Definition created_desc (u1 u2 : Users.t) : Prop :=
  Users.created_at u2 ≤ Users.created_at u1.

#[global] Instance created_desc_dec : RelDecision created_desc.
Proof. intros u1 u2. unfold created_desc. apply _. Defined.


(** The row the joins attach to [u] when every join finds at most one
    partner. *)
Definition the_join (db : database) (now : timestamp) (u : Users.t) : J.t :=
  {| J.u := u;
     J.a := head (filter (λ a, Users.auth_id u = Some (Auth.id a)) (auth db));
     J.ur := head (filter (λ ur, Users.id u = UserRoles.user_id ur) (user_roles db));
     J.ud := head (filter (λ ud, Users.id u = UserDivisions.user_id ud)
                          (user_divisions db));
     J.ua := head (filter (λ ua, Users.id u = Agg.user_id ua) (user_aggregates db now));
     J.ucr := head (filter (λ ucr, Users.id u = Rank.id ucr) (user_creation_rank db));
     J.tc := COUNT (users db) |}.

(** ** Sample data *)

Definition profile (id : Z) (full_name : string) (created_at : timestamp)
    (bio address phone_number : option string) (profile_json : option json)
    (auth_id : option Z) : Users.t :=
  {| Users.id := id;
     Users.username := Some full_name;
     Users.full_name := Some full_name;
     Users.birth_date := None;
     Users.bio := bio;
     Users.long_bio := None;
     Users.profile_json := profile_json;
     Users.address := address;
     Users.phone_number := phone_number;
     Users.created_at := created_at;
     Users.updated_at := None;
     Users.auth_id := auth_id |}.

Definition ann : Users.t :=
  profile 1 "Ann" 100 (Some "Hello") (Some "1 Main St") None None (Some 10).
Definition bob : Users.t :=
  profile 2 "Bob" 200 (Some "") None None None None.
Definition cy : Users.t :=
  profile 3 "Cy" 300 None (Some "3 Side St") (Some "555") (Some (JObj [])) None.

(** Three profiles created at three different times, at most one role and
    one division each; only [ann] has activity. *)
Definition demo_db : database :=
  {| users := [ann; bob; cy];
     auth := [ {| Auth.id := 10; Auth.email := Some "ann@example.org" |} ];
     user_roles := [ {| UserRoles.user_id := 1; UserRoles.role := Some "admin" |} ];
     user_divisions :=
       [ {| UserDivisions.user_id := 1; UserDivisions.division_name := Some "Tech" |};
         {| UserDivisions.user_id := 2; UserDivisions.division_name := Some "Tech" |};
         {| UserDivisions.user_id := 3; UserDivisions.division_name := Some "Ops" |} ];
     user_logs :=
       [ {| UserLogs.user_id := 1; UserLogs.action := "login"; UserLogs.created_at := 400 |};
         {| UserLogs.user_id := 1; UserLogs.action := "update_profile";
            UserLogs.created_at := 410 |} ] |}.

Definition demo_now : timestamp := 500.

Definition search (division page limit : option string) : SearchParams.t :=
  {| SearchParams.division := division;
     SearchParams.page := page;
     SearchParams.limit := limit |}.

(** [?division=Tech&limit=2] *)
Definition demo_q : SearchParams.t := search (Some "Tech") None (Some "2").

Definition body_of (r : response) : Body.t :=
  match r with
  | Ok200 body => body
  | Err500 => respond None 0 0 [] 0
  end.

Definition demo_body : Body.t :=
  Eval vm_compute in body_of (GET_exec demo_db demo_now demo_q).

Definition demo_bob : User.t :=
  Eval vm_compute in default (to_user (select_list 0 {| J.u := bob; J.a := None;
    J.ur := None; J.ud := None; J.ua := None; J.ucr := None; J.tc := 0 |}))
    (Body.users demo_body !! 0%nat).

(** One profile with two role rows and no division row. *)
Definition two_roles_db : database :=
  {| users := [ann];
     auth := [];
     user_roles :=
       [ {| UserRoles.user_id := 1; UserRoles.role := Some "admin" |};
         {| UserRoles.user_id := 1; UserRoles.role := Some "moderator" |} ];
     user_divisions := [];
     user_logs := [] |}.

(** One profile with two division rows. *)
Definition two_divisions_db : database :=
  {| users := [ann];
     auth := [];
     user_roles := [];
     user_divisions :=
       [ {| UserDivisions.user_id := 1; UserDivisions.division_name := Some "Tech" |};
         {| UserDivisions.user_id := 1; UserDivisions.division_name := Some "Ops" |} ];
     user_logs := [] |}.

(** Two profiles created at the same instant. *)
Definition dan : Users.t := profile 4 "Dan" 100 None None None None None.

Definition tie_db : database :=
  {| users := [ann; dan];
     auth := [];
     user_roles := [];
     user_divisions := [];
     user_logs := [] |}.

(** No query parameter at all: page 1, limit 50, no filter. *)
Definition no_params : SearchParams.t := search None None None.

Definition two_roles_body : Body.t :=
  Eval vm_compute in body_of (GET_exec two_roles_db demo_now no_params).

Definition tie_body : Body.t :=
  Eval vm_compute in body_of (GET_exec tie_db demo_now no_params).

Definition two_roles_first : User.t :=
  Eval vm_compute in default demo_bob (Body.users two_roles_body !! 0%nat).




Definition two_divisions_body : Body.t :=
  Eval vm_compute in body_of (GET_exec two_divisions_db demo_now no_params).

(** The pages of [demo_db] for the filter [Tech], one row per page, page
    [k] requested [k] days after [demo_now]. *)
Definition tech_page (k : Z) : SearchParams.t :=
  search (Some "Tech") (Some (if decide (k = 1) then "1" else "2")) (Some "1").

Definition tech_time (k : Z) : timestamp := demo_now + 86400 * k.

Definition tech_pages (k : Z) : Body.t :=
  body_of (GET_exec demo_db (tech_time k) (tech_page k)).

(** The two rows of [tie_db] in scan order and in the opposite order. *)
Definition tie_rows : list Row.t :=
  Eval vm_compute in selected tie_db demo_now None.

Definition tie_rows_swapped : list Row.t :=
  Eval vm_compute in reverse tie_rows.

Definition tie_body_swapped : Body.t :=
  Eval vm_compute in
    respond None 1 50 (limit_offset 50 0 tie_rows_swapped) (countQuery tie_db None).

(** Pages of one row over [tie_db]: page 1 cut from the scan order, page 2
    cut from the opposite order. *)
Definition tie_page1 : Body.t :=
  Eval vm_compute in
    respond None 1 1 (limit_offset 1 0 tie_rows) (countQuery tie_db None).

Definition tie_page2 : Body.t :=
  Eval vm_compute in
    respond None 2 1 (limit_offset 1 1 tie_rows_swapped) (countQuery tie_db None).


(** [?division=Tech&page=2&limit=1] *)
Definition demo_q_page2 : SearchParams.t := search (Some "Tech") (Some "2") (Some "1").

Definition demo_body_page2 : Body.t :=
  Eval vm_compute in body_of (GET_exec demo_db demo_now demo_q_page2).




(** A profile without a full name and without a role. *)
Definition nameless : Users.t :=
  {| Users.id := 7;
     Users.username := Some "ghost";
     Users.full_name := None;
     Users.birth_date := None;
     Users.bio := Some "Hi";
     Users.long_bio := None;
     Users.profile_json := None;
     Users.address := None;
     Users.phone_number := None;
     Users.created_at := 100;
     Users.updated_at := None;
     Users.auth_id := None |}.

Definition nameless_db : database :=
  {| users := [nameless]; auth := []; user_roles := []; user_divisions := [];
     user_logs := [] |}.

Definition nameless_body : Body.t :=
  Eval vm_compute in body_of (GET_exec nameless_db demo_now no_params).

Definition nameless_record : User.t :=
  Eval vm_compute in default demo_bob (Body.users nameless_body !! 0%nat).

(** A profile with a bio and an address, no phone number, and the JSON
    document [null]. *)
Definition eve : Users.t :=
  profile 8 "Eve" 100 (Some "Hi") (Some "8 Main St") None (Some JNull) None.

Definition json_null_db : database :=
  {| users := [eve]; auth := []; user_roles := []; user_divisions := [];
     user_logs := [] |}.

Definition json_null_body : Body.t :=
  Eval vm_compute in body_of (GET_exec json_null_db demo_now no_params).

Definition json_null_record : User.t :=
  Eval vm_compute in default demo_bob (Body.users json_null_body !! 0%nat).

(** The second record of [demo_body]. *)
Definition demo_ann : User.t :=
  Eval vm_compute in default demo_bob (Body.users demo_body !! 1%nat).

(** [?division=Tech], ten days after [demo_now]. *)
Definition later_body : Body.t :=
  Eval vm_compute in body_of (GET_exec demo_db (demo_now + 864000) demo_q).

Definition later_bob : User.t :=
  Eval vm_compute in default demo_bob (Body.users later_body !! 0%nat).

(** [ann] in a division called [constructor], [bob] in none. *)
Definition odd_divisions_db : database :=
  {| users := [ann; bob];
     auth := [];
     user_roles := [];
     user_divisions :=
       [ {| UserDivisions.user_id := 1;
            UserDivisions.division_name := Some "constructor" |} ];
     user_logs := [] |}.

Definition odd_divisions_body : Body.t :=
  Eval vm_compute in body_of (GET_exec odd_divisions_db demo_now no_params).

(** ** The legacy handler's subqueries *)

(** [(SELECT COUNT( * ) FROM user_logs WHERE user_id = u.id)] *)
Definition legacy_log_count (db : database) (u : Users.t) : Z :=
  COUNT (filter (λ ul, UserLogs.user_id ul = Users.id u) (user_logs db)).

(** [(SELECT COUNT( * ) FROM user_logs WHERE action = 'login' AND user_id = u.id)] *)
Definition legacy_login_count (db : database) (u : Users.t) : Z :=
  COUNT (filter (λ ul, UserLogs.action ul = "login" ∧ UserLogs.user_id ul = Users.id u)
                (user_logs db)).

(** [(SELECT COUNT( * ) FROM user_logs WHERE action = 'update_profile' AND user_id = u.id)] *)
Definition legacy_update_count (db : database) (u : Users.t) : Z :=
  COUNT (filter (λ ul, UserLogs.action ul = "update_profile" ∧
                       UserLogs.user_id ul = Users.id u)
                (user_logs db)).

(** [(SELECT COUNT( * ) FROM user_roles WHERE user_id = u.id)] and its
    twin over [user_divisions]. *)
Definition legacy_role_count (db : database) (u : Users.t) : Z :=
  COUNT (filter (λ ur, UserRoles.user_id ur = Users.id u) (user_roles db)).

Definition legacy_division_count (db : database) (u : Users.t) : Z :=
  COUNT (filter (λ ud, UserDivisions.user_id ud = Users.id u) (user_divisions db)).

(** ** The projections of the profile document *)

(** [v.key] on a value that [JSON.parse] produced: only an object has the
    property, and of a repeated key the last occurrence counts. *)
Definition js_get (v : json) (key : string) : option json :=
  match v with
  | JObj fields => snd <$> last (filter (λ kv, kv.1 = key) fields)
  | _ => None
  end.

(** [v || d] *)
Definition js_or (v : option json) (d : json) : json :=
  match v with
  | Some x => if truthy_json (Some x) then x else d
  | None => d
  end.

(** [user.profile_json?.key] *)
Definition profile_member (user : Row.t) (key : string) : option json :=
  Row.profile_json user ≫= λ v, js_get v key.

Definition socialMedia (user : Row.t) : json :=
  js_or (profile_member user "social_media") (JObj []).
Definition preferences (user : Row.t) : json :=
  js_or (profile_member user "preferences") (JObj []).
Definition skills (user : Row.t) : json :=
  js_or (profile_member user "skills") (JArr []).
Definition interests (user : Row.t) : json :=
  js_or (profile_member user "interests") (JArr []).

(** ** The page summary *)

(** What an own property of [usersByDivision] holds: a count, or the text
    that [+ 1] makes of a member inherited from [Object.prototype]. *)
Inductive tally := Count (n : Z) | Text.

#[global] Instance tally_eq_dec : EqDecision tally.
Proof. solve_decision. Defined.

(** The names an empty object literal inherits. *)
Definition object_prototype_names : list string :=
  [ "constructor"; "__defineGetter__"; "__defineSetter__"; "hasOwnProperty";
    "__lookupGetter__"; "__lookupSetter__"; "isPrototypeOf";
    "propertyIsEnumerable"; "toString"; "valueOf"; "__proto__";
    "toLocaleString" ].

(** [String(user.division)]: the property key; [null] becomes ["null"]. *)
Definition division_key (division : option string) : string :=
  default "null" division.

(** [acc.usersByDivision[k] = (acc.usersByDivision[k] || 0) + 1]. An own
    count grows by one; an own text stays a text; without an own property an
    inherited member is truthy and [+ 1] turns it into a text, which the
    [__proto__] setter drops and any other name stores. *)
Definition tally_step (o : gmap string tally) (division : option string)
    : gmap string tally :=
  let k := division_key division in
  match o !! k with
  | Some (Count n) => <[k := Count (n + 1)]> o
  | Some Text => <[k := Text]> o
  | None =>
      if decide (k ∈ object_prototype_names)
      then (if decide (k = "__proto__") then o else <[k := Text]> o)
      else <[k := Count 1]> o
  end.

Module Summary.
Record t := {
  activeUsers : Z;
  seniorUsers : Z;
  usersWithCompleteProfiles : Z;
  usersByDivision : gmap string tally
}.
End Summary.

Definition summary_step (acc : Summary.t) (user : User.t) : Summary.t :=
  {| Summary.activeUsers :=
       if User.isActive user then Summary.activeUsers acc + 1
       else Summary.activeUsers acc;
     Summary.seniorUsers :=
       if User.isSenior user then Summary.seniorUsers acc + 1
       else Summary.seniorUsers acc;
     Summary.usersWithCompleteProfiles :=
       if decide (User.profileCompleteness user > 75)
       then Summary.usersWithCompleteProfiles acc + 1
       else Summary.usersWithCompleteProfiles acc;
     Summary.usersByDivision :=
       tally_step (Summary.usersByDivision acc) (User.division user) |}.

(** [users.reduce(..., { activeUsers: 0, ... , usersByDivision: {} })] *)
Definition summarize (users : list User.t) : Summary.t :=
  foldl summary_step
        {| Summary.activeUsers := 0;
           Summary.seniorUsers := 0;
           Summary.usersWithCompleteProfiles := 0;
           Summary.usersByDivision := ∅ |}
        users.

(** ** The stand-alone SQL file *)

(** The file's [WHERE] clause, [($1::text IS NULL OR ud.division_name = $1)]:
    the handler's without the [all] disjunct. Its [FROM] clause, ordering
    and paging are the handler's. *)
Definition sql_file_where (p1 : option string) (j : J.t) : sql_bool :=
  sql_or (sql_is_null p1) (sql_eq (J.ud j ≫= UserDivisions.division_name) p1).

Definition sql_file_selected (db : database) (now : timestamp) (p1 : option string)
    : list J.t :=
  filter (λ j, holds (sql_file_where p1 j)) (from_clause db now).

(** ** The index script's test queries *)

(** [SELECT COUNT( * ) FROM users u JOIN user_divisions ud ON u.id = ud.user_id
    WHERE ud.division_name = 'Tech'] *)
Definition division_filter_count (db : database) : Z :=
  COUNT (filter (λ r : Users.t * UserDivisions.t,
                   holds (sql_eq (UserDivisions.division_name r.2) (Some "Tech")))
                (u ← users db;
                 ud ← filter (λ ud, Users.id u = UserDivisions.user_id ud)
                             (user_divisions db);
                 [ (u, ud) ])).

(** ** The single-profile query *)

Module UserRow.
Record t := {
  id : Z;
  username : option string;
  full_name : option string;
  birth_date : option timestamp;
  bio : option string;
  long_bio : option string;
  profile_json : option json;
  address : option string;
  phone_number : option string;
  created_at : timestamp;
  updated_at : option timestamp;
  email : option string;
  role : option string;
  division_name : option string
}.
End UserRow.

Definition user_row (u : Users.t) (a : option Auth.t) (ur : option UserRoles.t)
    (ud : option UserDivisions.t) : UserRow.t :=
  {| UserRow.id := Users.id u;
     UserRow.username := Users.username u;
     UserRow.full_name := Users.full_name u;
     UserRow.birth_date := Users.birth_date u;
     UserRow.bio := Users.bio u;
     UserRow.long_bio := Users.long_bio u;
     UserRow.profile_json := Users.profile_json u;
     UserRow.address := Users.address u;
     UserRow.phone_number := Users.phone_number u;
     UserRow.created_at := Users.created_at u;
     UserRow.updated_at := Users.updated_at u;
     UserRow.email := a ≫= Auth.email;
     UserRow.role := ur ≫= UserRoles.role;
     UserRow.division_name := ud ≫= UserDivisions.division_name |}.

(** [FROM users u LEFT JOIN auth a ... LEFT JOIN user_roles ur ...
    LEFT JOIN user_divisions ud ...] *)
Definition user_by_id_from (db : database)
    : list (Users.t * option Auth.t * option UserRoles.t * option UserDivisions.t) :=
  u ← users db;
  a ← left_matches (filter (λ a, Users.auth_id u = Some (Auth.id a)) (auth db));
  ur ← left_matches (filter (λ ur, Users.id u = UserRoles.user_id ur) (user_roles db));
  ud ← left_matches
         (filter (λ ud, Users.id u = UserDivisions.user_id ud) (user_divisions db));
  [ (u, a, ur, ud) ].

(** [SELECT ... WHERE u.id = $1], before [LIMIT]. *)
Definition user_by_id_rows (db : database) (p1 : Z) : list UserRow.t :=
  (λ r, user_row r.1.1.1 r.1.1.2 r.1.2 r.2)
  <$> filter (λ r, Users.id r.1.1.1 = p1) (user_by_id_from db).

(** [LIMIT 1] without [ORDER BY]: the first row of any order the store
    produces. *)
Definition user_by_id (db : database) (p1 : Z) (result : list UserRow.t) : Prop :=
  ∃ rows, rows ≡ₚ user_by_id_rows db p1 ∧ result = take 1 rows.

(** One executor: scan order. *)
Definition user_by_id_exec (db : database) (p1 : Z) : list UserRow.t :=
  take 1 (user_by_id_rows db p1).

(** ** The clean-up script *)

(** The script's statements, on a database without triggers; its console
    output is not embedded. *)

(** [DELETE FROM t WHERE p] *)
Definition DELETE_FROM {A} (p : A → Prop) `{∀ x, Decision (p x)} (t : list A) : list A :=
  filter (λ r, ¬ p r) t.

(** [username IS NULL OR full_name IS NULL OR bio IS NULL OR address IS NULL
    OR phone_number IS NULL] *)
Definition has_null_value (u : Users.t) : Prop :=
  Users.username u = None ∨ Users.full_name u = None ∨ Users.bio u = None ∨
  Users.address u = None ∨ Users.phone_number u = None.

#[global] Instance has_null_value_dec u : Decision (has_null_value u).
Proof. unfold has_null_value. apply _. Defined.

(** [EXISTS (SELECT 1 FROM users u2 WHERE u2.username = u1.username
    AND u2.id < u1.id)] *)
Definition duplicate_username (db : database) (u1 : Users.t) : Prop :=
  Exists (λ u2, holds (sql_eq (Users.username u2) (Users.username u1)) ∧
                Users.id u2 < Users.id u1)
         (users db).

Definition duplicate_phone (db : database) (u1 : Users.t) : Prop :=
  Exists (λ u2, holds (sql_eq (Users.phone_number u2) (Users.phone_number u1)) ∧
                Users.id u2 < Users.id u1)
         (users db).

#[global] Instance duplicate_username_dec db u : Decision (duplicate_username db u).
Proof. unfold duplicate_username. apply _. Defined.

#[global] Instance duplicate_phone_dec db u : Decision (duplicate_phone db u).
Proof. unfold duplicate_phone. apply _. Defined.

Definition nullUserIds (db : database) : list Z :=
  Users.id <$> filter has_null_value (users db).

Definition duplicateUsernameIds (db : database) : list Z :=
  Users.id <$> filter (duplicate_username db) (users db).

Definition duplicatePhoneIds (db : database) : list Z :=
  Users.id <$> filter (duplicate_phone db) (users db).

(** [[...new Set(ids)]]: first occurrences, in order. *)
Fixpoint spread_set (ids : list Z) : list Z :=
  match ids with
  | [] => []
  | id :: ids => id :: filter (λ i, i ≠ id) (spread_set ids)
  end.

Definition allUserIdsToDelete (db : database) : list Z :=
  spread_set (nullUserIds db ++ duplicateUsernameIds db ++ duplicatePhoneIds db).

(** [cleanUsersData], from [BEGIN] to [COMMIT]. *)
Definition cleanUsersData (db : database) : database :=
  let ids := allUserIdsToDelete db in
  if decide (length ids = 0%nat) then db
  else
    let user_roles1 := DELETE_FROM (λ r, UserRoles.user_id r ∈ ids) (user_roles db) in
    let user_logs1 := DELETE_FROM (λ r, UserLogs.user_id r ∈ ids) (user_logs db) in
    let user_divisions1 :=
      DELETE_FROM (λ r, UserDivisions.user_id r ∈ ids) (user_divisions db) in
    let users1 := DELETE_FROM (λ u, Users.id u ∈ ids) (users db) in
    {| users := users1;
       auth :=
         DELETE_FROM (λ a, Auth.id a ∉ omap Users.auth_id users1) (auth db);
       user_roles :=
         DELETE_FROM (λ r, UserRoles.user_id r ∉ Users.id <$> users1) user_roles1;
       user_divisions :=
         DELETE_FROM (λ r, UserDivisions.user_id r ∉ Users.id <$> users1) user_divisions1;
       user_logs :=
         DELETE_FROM (λ r, UserLogs.user_id r ∉ Users.id <$> users1) user_logs1 |}.

(** ** The statement-by-statement version of the clean-up script *)

Module InPlace.

(** The state after a [DELETE FROM users]: the other tables are as they
    were. *)
Definition set_users (db : database) (us : list Users.t) : database :=
  {| users := us;
     auth := auth db;
     user_roles := user_roles db;
     user_divisions := user_divisions db;
     user_logs := user_logs db |}.

(** [cleanUsersData], from [BEGIN] to [COMMIT]: every [DELETE] reads the
    tables the previous one left; no statement is rejected. *)
Definition cleanUsersData (db : database) : database :=
  let db1 := set_users db (DELETE_FROM has_null_value (users db)) in
  let db2 := set_users db1 (DELETE_FROM (duplicate_username db1) (users db1)) in
  let db3 := set_users db2 (DELETE_FROM (duplicate_phone db2) (users db2)) in
  {| users := users db3;
     auth :=
       DELETE_FROM (λ a, Auth.id a ∉ omap Users.auth_id (users db3)) (auth db3);
     user_roles :=
       DELETE_FROM (λ r, UserRoles.user_id r ∉ Users.id <$> users db3) (user_roles db3);
     user_divisions :=
       DELETE_FROM (λ r, UserDivisions.user_id r ∉ Users.id <$> users db3)
                   (user_divisions db3);
     user_logs :=
       DELETE_FROM (λ r, UserLogs.user_id r ∉ Users.id <$> users db3) (user_logs db3) |}.

End InPlace.

(** ** The workflow's integrity check *)

(** The four [SELECT COUNT( * ) ... NOT IN ...] of the verification step. *)
Definition orphaned_roles (db : database) : Z :=
  COUNT (filter (λ r, UserRoles.user_id r ∉ Users.id <$> users db) (user_roles db)).
Definition orphaned_logs (db : database) : Z :=
  COUNT (filter (λ r, UserLogs.user_id r ∉ Users.id <$> users db) (user_logs db)).
Definition orphaned_divisions (db : database) : Z :=
  COUNT (filter (λ r, UserDivisions.user_id r ∉ Users.id <$> users db)
                (user_divisions db)).
Definition orphaned_auth (db : database) : Z :=
  COUNT (filter (λ a, Auth.id a ∉ omap Users.auth_id (users db)) (auth db)).

Definition totalOrphaned (db : database) : Z :=
  orphaned_roles db + orphaned_logs db + orphaned_divisions db + orphaned_auth db.

(** The step's exit status: [process.exit(1)] when an orphan is left. *)
Definition verify_exit_code (db : database) : Z :=
  if decide (totalOrphaned db > 0) then 1 else 0.

(** A profile the script selects for deletion: a row of one of its three
    identifying queries. *)
Definition flagged (db : database) (u : Users.t) : Prop :=
  has_null_value u ∨ duplicate_username db u ∨ duplicate_phone db u.

#[global] Instance flagged_dec db u : Decision (flagged db u).
Proof. unfold flagged. apply _. Defined.

(** ** Sample data for the clean-up script *)

Definition member (id : Z) (username phone_number : string) (bio : option string)
    (auth_id : option Z) : Users.t :=
  {| Users.id := id;
     Users.username := Some username;
     Users.full_name := Some username;
     Users.birth_date := None;
     Users.bio := bio;
     Users.long_bio := None;
     Users.profile_json := None;
     Users.address := Some "1 Main St";
     Users.phone_number := Some phone_number;
     Users.created_at := 100 * id;
     Users.updated_at := None;
     Users.auth_id := auth_id |}.

(** Six profiles: 2 repeats the username of 1, 3 has no bio, 4 repeats the
    username of 3, 5 repeats the phone number of 1; a role row and an auth
    row belong to no profile. *)
Definition messy_db : database :=
  {| users := [ member 1 "ann" "111" (Some "a") (Some 10);
                member 2 "ann" "222" (Some "b") (Some 20);
                member 3 "cat" "333" None None;
                member 4 "cat" "444" (Some "d") None;
                member 5 "eve" "111" (Some "e") None;
                member 6 "fay" "666" (Some "") None ];
     auth := [ {| Auth.id := 10; Auth.email := Some "ann@example.org" |};
               {| Auth.id := 20; Auth.email := Some "ann2@example.org" |};
               {| Auth.id := 30; Auth.email := None |} ];
     user_roles := [ {| UserRoles.user_id := 1; UserRoles.role := Some "admin" |};
                     {| UserRoles.user_id := 2; UserRoles.role := Some "user" |};
                     {| UserRoles.user_id := 6; UserRoles.role := Some "user" |};
                     {| UserRoles.user_id := 99; UserRoles.role := Some "user" |} ];
     user_divisions :=
       [ {| UserDivisions.user_id := 3; UserDivisions.division_name := Some "Tech" |};
         {| UserDivisions.user_id := 6; UserDivisions.division_name := Some "Tech" |} ];
     user_logs :=
       [ {| UserLogs.user_id := 2; UserLogs.action := "login"; UserLogs.created_at := 400 |};
         {| UserLogs.user_id := 6; UserLogs.action := "login"; UserLogs.created_at := 410 |} ] |}.

(** Two complete, distinct profiles and a role row that belongs to no
    profile. *)
Definition orphan_db : database :=
  {| users := [ member 1 "ann" "111" (Some "a") None;
                member 6 "fay" "666" (Some "f") None ];
     auth := [];
     user_roles := [ {| UserRoles.user_id := 1; UserRoles.role := Some "admin" |};
                     {| UserRoles.user_id := 99; UserRoles.role := Some "user" |} ];
     user_divisions := [];
     user_logs := [] |}.

Definition cleaned_body : Body.t :=
  Eval vm_compute in body_of (GET_exec (cleanUsersData messy_db) demo_now no_params).

Definition cleaned_fay : User.t :=
  Eval vm_compute in default demo_bob (Body.users cleaned_body !! 0%nat).

(** * Properties *)

(** Closes a decidable closed goal by evaluating its decision procedure. *)
Ltac by_computation :=
  match goal with
  | |- ?P => apply (bool_decide_unpack P); vm_compute; exact I
  end.

(** Closes a membership goal on a closed list by walking the list. *)
Ltac by_membership :=
  vm_compute; repeat first [apply list_elem_of_here | apply list_elem_of_further].

(** ** Lists *)

Lemma bind_singletons {A B} (f : A → list B) (g : A → B) (l : list A) :
  (∀ x, f x = [g x]) → l ≫= f = g <$> l.
Proof.
  intros Hf. induction l as [|x l IH]; [done|].
  by rewrite bind_cons, Hf, IH.
Qed.

Lemma fmap_concat {A B} (f : A → B) (ls : list (list A)) :
  f <$> concat ls = concat ((λ l : list A, f <$> l) <$> ls).
Proof.
  induction ls as [|l ls IH]; [done|].
  simpl. by rewrite fmap_app, IH.
Qed.

Lemma filter_fmap_iff {A B} (P : B → Prop) (Q : A → Prop)
    `{∀ y, Decision (P y)} `{∀ x, Decision (Q x)} (h : A → B) (l : list A) :
  (∀ x, P (h x) ↔ Q x) →
  filter P (h <$> l) = h <$> filter Q l.
Proof.
  intros HPQ. induction l as [|x l IH]; [done|].
  rewrite fmap_cons, !filter_cons.
  destruct (decide (P (h x))) as [HP|HP], (decide (Q x)) as [HQ|HQ]; simpl;
    rewrite ?IH; try done; by apply HPQ in HP || apply HPQ in HQ.
Qed.

Lemma length_filter_fmap {A B} (P : B → Prop) (Q : A → Prop)
    `{∀ y, Decision (P y)} `{∀ x, Decision (Q x)} (h : A → B) (l : list A) :
  (∀ x, P (h x) ↔ Q x) →
  length (filter P (h <$> l)) = length (filter Q l).
Proof.
  intros HPQ. induction l as [|x l IH]; [done|].
  rewrite fmap_cons, !filter_cons.
  destruct (decide (P (h x))) as [HP|HP], (decide (Q x)) as [HQ|HQ]; simpl;
    rewrite ?IH; try done; by apply HPQ in HP || apply HPQ in HQ.
Qed.

Lemma list_filter_iff_elem {A} (P Q : A → Prop)
    `{∀ x, Decision (P x)} `{∀ x, Decision (Q x)} (l : list A) :
  (∀ x, x ∈ l → P x ↔ Q x) → filter P l = filter Q l.
Proof.
  induction l as [|x l IH]; [done|]. intros HPQ.
  rewrite !filter_cons, IH by (intros y Hy; apply HPQ; by right).
  pose proof (HPQ x ltac:(by left)).
  destruct (decide (P x)), (decide (Q x)); [done | exfalso; tauto.. | done].
Qed.

Lemma NoDup_fmap_eq {A B} (f : A → B) (l : list A) (x y : A) :
  NoDup (f <$> l) → x ∈ l → y ∈ l → f x = f y → x = y.
Proof.
  induction l as [|z l IH]; [by intros _ ?%elem_of_nil|].
  rewrite fmap_cons, NoDup_cons, !elem_of_cons.
  intros [Hz Hl] [->|Hx] [->|Hy] Heq; auto.
  - destruct Hz. rewrite Heq. apply list_elem_of_fmap. eauto.
  - destruct Hz. rewrite <- Heq. apply list_elem_of_fmap. eauto.
Qed.

Lemma concat_pages {A} (l : list A) (L n : nat) :
  (length l ≤ n * L)%nat →
  concat ((λ k, take L (drop (k * L) l)) <$> seq 0 n) = l.
Proof.
  revert l. induction n as [|n IH]; intros l Hl.
  - destruct l; simpl in *; [done | lia].
  - change (seq 0 (S n)) with (0%nat :: seq 1 n).
    rewrite fmap_cons, <- fmap_S_seq, <- list_fmap_compose. simpl concat.
    rewrite drop_0.
    rewrite (list_fmap_ext _ (λ k, take L (drop (k * L) (drop L l)))).
    + rewrite IH; [apply take_drop|]. rewrite length_drop. lia.
    + intros _ k _. simpl. by rewrite drop_drop.
Qed.

Lemma limit_offset_sublist {A} limit offset (rows : list A) :
  limit_offset limit offset rows `sublist_of` rows.
Proof.
  unfold limit_offset. etrans; [apply sublist_take | apply sublist_drop].
Qed.

Lemma elem_of_limit_offset {A} limit offset (rows : list A) x :
  x ∈ limit_offset limit offset rows → x ∈ rows.
Proof. intros Hx. eapply elem_of_sublist; [done | apply limit_offset_sublist]. Qed.

Lemma concat_pages_Z {A} (l : list A) (limit totalPages : Z) :
  0 < limit →
  Z.of_nat (length l) ≤ totalPages * limit →
  concat ((λ k, limit_offset limit ((k - 1) * limit) l) <$> seqZ 1 totalPages) = l.
Proof.
  intros Hlimit Hlen. unfold seqZ. rewrite <- list_fmap_compose.
  rewrite (list_fmap_ext _
    (λ i, take (Z.to_nat limit) (drop (i * Z.to_nat limit) l))).
  - apply concat_pages. nia.
  - intros _ i _. simpl. unfold limit_offset. do 2 f_equal. nia.
Qed.

Lemma elem_of_left_matches {B} (ms : list B) (o : option B) :
  o ∈ left_matches ms ↔ (ms = [] ∧ o = None) ∨ (∃ b, o = Some b ∧ b ∈ ms).
Proof.
  destruct ms as [|m ms].
  - simpl. rewrite list_elem_of_singleton. split; [by left|].
    intros [[_ ->]|(b & _ & ?%elem_of_nil)]; done.
  - change (left_matches (m :: ms)) with (Some <$> (m :: ms)).
    rewrite list_elem_of_fmap. split; [by right|]. by intros [[? _]|?].
Qed.

Lemma left_matches_inhabited {B} (ms : list B) : ∃ o, o ∈ left_matches ms.
Proof.
  destruct ms as [|m ms].
  - exists None. apply list_elem_of_here.
  - exists (Some m). apply list_elem_of_here.
Qed.

Section keys.
Context {A K : Type} `{EqDecision K} (key : A → K).

Lemma filter_key_NoDup (l : list A) (x : A) :
  NoDup (key <$> l) → x ∈ l → filter (λ y, key x = key y) l = [x].
Proof.
  induction l as [|z l IH]; [by intros _ ?%elem_of_nil|].
  rewrite fmap_cons, NoDup_cons, elem_of_cons. intros [Hz Hl] [->|Hx].
  - rewrite filter_cons_True by done. f_equal.
    apply elem_of_nil_inv. intros y [Hy Hin]%list_elem_of_filter.
    apply Hz. rewrite Hy. apply list_elem_of_fmap. eauto.
  - rewrite filter_cons_False; [by apply IH|].
    intros Heq. apply Hz. rewrite <- Heq. apply list_elem_of_fmap. eauto.
Qed.

Lemma filter_key_at_most_one (l : list A) (k : K) :
  NoDup (key <$> l) →
  filter (λ y, k = key y) l = [] ∨ ∃ x, x ∈ l ∧ k = key x ∧ filter (λ y, k = key y) l = [x].
Proof.
  intros Hl. destruct (filter (λ y, k = key y) l) as [|x rest] eqn:Hf; [by left|].
  right. assert (x ∈ filter (λ y, k = key y) l) as [Hk Hx]%list_elem_of_filter
    by (rewrite Hf; apply list_elem_of_here).
  exists x. split; [done|]. split; [done|].
  rewrite <- Hf. subst k. by apply filter_key_NoDup.
Qed.

Lemma left_matches_unique (l : list A) (k : K) :
  NoDup (key <$> l) →
  left_matches (filter (λ y, k = key y) l) = [head (filter (λ y, k = key y) l)].
Proof.
  intros Hl.
  by destruct (filter_key_at_most_one l k Hl) as [->|(x & _ & _ & ->)].
Qed.

End keys.

(** ** Arithmetic and text *)

Lemma Math_ceil_div_spec (a b : Z) :
  0 < b → (Math_ceil_div a b - 1) * b < a ≤ Math_ceil_div a b * b.
Proof.
  intros Hb. unfold Math_ceil_div.
  pose proof (Z.div_mod (- a) b ltac:(lia)).
  pose proof (Z.mod_pos_bound (- a) b Hb). nia.
Qed.

Lemma string_app_assoc (s1 s2 s3 : string) :
  (s1 +:+ s2) +:+ s3 = s1 +:+ (s2 +:+ s3).
Proof.
  induction s1 as [|c s1 IH]; [done|].
  change (String c ((s1 +:+ s2) +:+ s3) = String c (s1 +:+ (s2 +:+ s3))).
  by rewrite IH.
Qed.

Lemma profile_completeness_case_steps (u : Users.t) :
  profile_completeness_case u =
    25 * (not_null_int (Users.bio u) + not_null_int (Users.address u) +
          not_null_int (Users.phone_number u) + not_null_int (Users.profile_json u)).
Proof.
  unfold profile_completeness_case.
  destruct (Users.bio u), (Users.address u), (Users.phone_number u),
    (Users.profile_json u); simpl;
    repeat case_decide; try reflexivity; try lia;
    exfalso; match goal with H : ¬ _ |- _ => apply H end; eauto.
Qed.

(** ** The executor inhabits the relation *)

#[local] Instance newest_first_total : Total newest_first.
Proof. intros r1 r2. unfold newest_first. lia. Qed.

#[local] Instance newest_first_trans : Transitive newest_first.
Proof. intros r1 r2 r3. unfold newest_first. lia. Qed.

Lemma merge_sort_ordered (input : list Row.t) :
  order_by_created_at_desc input (merge_sort newest_first input).
Proof.
  split.
  - apply merge_sort_Permutation.
  - apply (Sorted_merge_sort newest_first).
Qed.

Lemma query_exec_admissible db now p1 limit offset :
  query db now p1 limit offset (query_exec db now p1 limit offset).
Proof. eexists. split; [apply merge_sort_ordered | reflexivity]. Qed.

Lemma limit_offset_beyond {A} (limit offset : Z) (rows : list A) :
  Z.of_nat (length rows) ≤ offset → limit_offset limit offset rows = [].
Proof.
  intros Hlen. unfold limit_offset. rewrite drop_ge by lia. apply take_nil.
Qed.

Lemma handle_exec_sound db now p :
  within_safe_integers db now (Params.divisionFilter p) →
  handle db now p (handle_exec db now p).
Proof.
  intros Hsafe. unfold handle_exec, handle.
  destruct (Params.page p), (Params.limit p), (Params.offset p); try reflexivity.
  destruct (decide _); [|reflexivity].
  split; [done|]. eexists. split; [apply query_exec_admissible | reflexivity].
Qed.

Lemma GET_exec_sound db now q :
  within_safe_integers db now (SearchParams.division q) →
  GET db now q (GET_exec db now q).
Proof. exact (handle_exec_sound db now (parse_params q)). Qed.

Lemma Sorted_limit_offset limit offset (sorted : list Row.t) :
  Sorted newest_first sorted → Sorted newest_first (limit_offset limit offset sorted).
Proof.
  intros Hs%Sorted_StronglySorted; [|apply _].
  apply StronglySorted_Sorted. unfold limit_offset.
  rewrite <- (take_drop (Z.to_nat offset) sorted) in Hs.
  apply StronglySorted_app_1_r in Hs.
  rewrite <- (take_drop (Z.to_nat limit) (drop (Z.to_nat offset) sorted)) in Hs.
  by apply StronglySorted_app_1_l in Hs.
Qed.

(** ** Numbers *)

Lemma MAX_SAFE_INTEGER_eq : MAX_SAFE_INTEGER = 9007199254740991.
Proof. reflexivity. Qed.

Lemma MAX_BIGINT_eq : MAX_BIGINT = 9223372036854775807.
Proof. reflexivity. Qed.

(** Up to [MAX_SAFE_INTEGER] every integer is a number. *)
Lemma round_double_safe (z : Z) :
  - MAX_SAFE_INTEGER ≤ z ≤ MAX_SAFE_INTEGER → round_double z = Num z.
Proof. intros Hz. unfold round_double. by rewrite decide_True by lia. Qed.

(** Rounding does not take an integer above [MAX_SAFE_INTEGER] back below. *)
Lemma round_double_large (z : Z) :
  MAX_SAFE_INTEGER < z →
  round_double z = Infinity ∨
  ∃ z', round_double z = Num z' ∧ MAX_SAFE_INTEGER < z'.
Proof.
  rewrite MAX_SAFE_INTEGER_eq. intros Hz. unfold round_double.
  rewrite MAX_SAFE_INTEGER_eq, decide_False by lia.
  rewrite (Z.abs_eq z) by lia.
  assert (53 ≤ Z.log2 z) as Hlog.
  { apply Z.log2_le_pow2; [lia|]. change (2 ^ 53) with 9007199254740992. lia. }
  set (e := Z.log2 z - 52).
  assert (2 ≤ 2 ^ e) as He.
  { change 2 with (2 ^ 1) at 1. apply Z.pow_le_mono_r; lia. }
  assert (2 ^ 52 ≤ z / 2 ^ e) as Hq.
  { apply Z.div_le_lower_bound; [lia|].
    rewrite <- Z.pow_add_r by lia.
    replace (e + 52) with (Z.log2 z) by lia.
    apply Z.log2_spec. lia. }
  set (q := z / 2 ^ e) in *.
  set (m := if decide (z mod 2 ^ e < 2 ^ (e - 1)) then q
            else if decide (2 ^ (e - 1) < z mod 2 ^ e) then q + 1
            else if Z.even q then q else q + 1).
  assert (2 ^ 52 ≤ m) as Hm.
  { subst m. repeat case_decide; try destruct (Z.even q); lia. }
  change (2 ^ 52) with 4503599627370496 in Hm.
  destruct (decide (2 ^ 1024 ≤ m * 2 ^ e)).
  - left. by rewrite decide_False by lia.
  - right. eexists. split; [done|]. rewrite Z.sgn_pos by lia. nia.
Qed.

Lemma parse_params_ranges q page limit :
  Params.page (parse_params q) = Num page →
  Params.limit (parse_params q) = Num limit →
  1 ≤ page ∧ 1 ≤ limit ≤ MAX_LIMIT.
Proof.
  unfold parse_params, MAX_LIMIT. simpl.
  destruct (parseInt (or_default (SearchParams.page q) "1")); simpl; try done;
    destruct (parseInt (or_default (SearchParams.limit q) "50")); simpl; try done;
    intros [= <-] [= <-]; lia.
Qed.

(** The offset the handler computes is the exact product as long as that
    is a safe integer, and is above the safe integers otherwise. *)
Lemma parse_params_offset_cases q page limit :
  Params.page (parse_params q) = Num page →
  Params.limit (parse_params q) = Num limit →
  ((page - 1) * limit ≤ MAX_SAFE_INTEGER ∧
   Params.offset (parse_params q) = Num ((page - 1) * limit)) ∨
  (MAX_SAFE_INTEGER < (page - 1) * limit ∧
   (Params.offset (parse_params q) = Infinity ∨
    ∃ offset, Params.offset (parse_params q) = Num offset ∧
              MAX_SAFE_INTEGER < offset)).
Proof.
  intros Hp Hl. destruct (parse_params_ranges q page limit Hp Hl) as (? & ? & Hmax).
  unfold MAX_LIMIT in Hmax.
  assert (Params.offset (parse_params q) =
          number_mul (number_sub (Num page) (Num 1)) (Num limit)) as ->.
  { unfold parse_params in *. simpl in *. by rewrite Hp, Hl. }
  simpl. rewrite MAX_SAFE_INTEGER_eq.
  destruct (decide (page - 1 ≤ MAX_SAFE_INTEGER)) as [Hsafe|Hbig].
  - rewrite MAX_SAFE_INTEGER_eq in Hsafe.
    rewrite round_double_safe by (rewrite MAX_SAFE_INTEGER_eq; lia). simpl.
    destruct (decide ((page - 1) * limit ≤ 9007199254740991)) as [Hs|Hb].
    + left. split; [done|].
      apply round_double_safe. rewrite MAX_SAFE_INTEGER_eq. nia.
    + right. split; [lia|]. rewrite <- MAX_SAFE_INTEGER_eq.
      apply round_double_large. rewrite MAX_SAFE_INTEGER_eq. lia.
  - rewrite MAX_SAFE_INTEGER_eq in Hbig. right. split; [nia|].
    destruct (round_double_large (page - 1)) as [->|(p' & -> & Hp')];
      [rewrite MAX_SAFE_INTEGER_eq; lia | | ].
    + left. simpl. rewrite Z.sgn_pos by lia. by rewrite decide_False, decide_True by lia.
    + simpl. rewrite <- MAX_SAFE_INTEGER_eq. apply round_double_large.
      rewrite MAX_SAFE_INTEGER_eq in *. nia.
Qed.

Lemma parse_params_offset q page limit :
  Params.page (parse_params q) = Num page →
  Params.limit (parse_params q) = Num limit →
  (page - 1) * limit ≤ MAX_SAFE_INTEGER →
  Params.offset (parse_params q) = Num ((page - 1) * limit).
Proof.
  intros Hp Hl Hsafe.
  destruct (parse_params_offset_cases q page limit Hp Hl) as [[_ ?]|[? _]]; [done | lia].
Qed.

(** ** The shape of a response *)

Lemma handle_params_of db now f page limit resp :
  (page - 1) * limit ≤ MAX_BIGINT →
  handle db now (params_of f page limit) resp ↔
  within_safe_integers db now f ∧
  ∃ sorted,
    order_by_created_at_desc (selected db now f) sorted ∧
    resp = Ok200 (respond f page limit
                          (limit_offset limit ((page - 1) * limit) sorted)
                          (countQuery db f)).
Proof.
  intros Hoff. unfold handle, params_of, query. simpl.
  rewrite decide_True by done. split.
  - intros (Hsafe & rows & (sorted & Hs & ->) & ->). split; [done|]. by exists sorted.
  - intros (Hsafe & sorted & Hs & ->). split; [done|].
    eexists. split; [by exists sorted | done].
Qed.

(** What the handler answers when the store accepts the offset. *)
Lemma GET_accepted db now q page limit offset resp :
  Params.page (parse_params q) = Num page →
  Params.limit (parse_params q) = Num limit →
  Params.offset (parse_params q) = Num offset →
  offset ≤ MAX_BIGINT →
  GET db now q resp ↔
  within_safe_integers db now (SearchParams.division q) ∧
  ∃ sorted,
    order_by_created_at_desc (selected db now (SearchParams.division q)) sorted ∧
    resp = Ok200 (respond (SearchParams.division q) page limit
                          (limit_offset limit offset sorted)
                          (countQuery db (SearchParams.division q))).
Proof.
  intros Hp Hl Ho Hoff. unfold GET, handle, query. rewrite Hp, Hl, Ho.
  rewrite decide_True by done.
  change (Params.divisionFilter (parse_params q)) with (SearchParams.division q).
  split.
  - intros (Hsafe & rows & (sorted & Hs & ->) & ->). split; [done|]. by exists sorted.
  - intros (Hsafe & sorted & Hs & ->). split; [done|].
    eexists. split; [by exists sorted | done].
Qed.


(** Over a result of at most [MAX_SAFE_INTEGER] rows the page at the
    rounded offset is the page at the exact one. *)
Lemma limit_offset_rounded q page limit offset (sorted : list Row.t) :
  Params.page (parse_params q) = Num page →
  Params.limit (parse_params q) = Num limit →
  Params.offset (parse_params q) = Num offset →
  Z.of_nat (length sorted) ≤ MAX_SAFE_INTEGER →
  limit_offset limit offset sorted = limit_offset limit ((page - 1) * limit) sorted.
Proof.
  intros Hp Hl Ho Hlen.
  destruct (parse_params_offset_cases q page limit Hp Hl)
    as [[_ Heq]|[Hbig [Hinf|(o & Heq & Ho')]]].
  - rewrite Ho in Heq. by injection Heq as ->.
  - by rewrite Ho in Hinf.
  - rewrite Ho in Heq. injection Heq as ->.
    by rewrite !limit_offset_beyond by lia.
Qed.

Lemma GET_ok_inv db now q body :
  GET db now q (Ok200 body) →
  ∃ page limit sorted,
    Params.page (parse_params q) = Num page ∧
    Params.limit (parse_params q) = Num limit ∧
    order_by_created_at_desc (selected db now (SearchParams.division q)) sorted ∧
    body = respond (SearchParams.division q) page limit
                   (limit_offset limit ((page - 1) * limit) sorted)
                   (countQuery db (SearchParams.division q)).
Proof.
  unfold GET, handle. intros H.
  destruct (Params.page (parse_params q)) as [|page| |] eqn:Hp; try discriminate H.
  destruct (Params.limit (parse_params q)) as [|limit| |] eqn:Hl; try discriminate H.
  destruct (Params.offset (parse_params q)) as [|offset| |] eqn:Ho; try discriminate H.
  destruct (decide (offset ≤ MAX_BIGINT)); [|discriminate H].
  destruct H as ([Hsel _] & rows & (sorted & Hs & ->) & [= ->]).
  exists page, limit, sorted. split; [done|]. split; [done|]. split; [done|].
  change (Params.divisionFilter (parse_params q)) with (SearchParams.division q).
  rewrite (limit_offset_rounded q page limit offset sorted Hp Hl Ho); [done|].
  destruct Hs as [Hperm _]. rewrite Hperm. exact Hsel.
Qed.

(** A response with status 200 tells that the results are within the safe
    integers and that no response to the request is an error. *)
Lemma GET_ok_safe db now q body :
  GET db now q (Ok200 body) →
  within_safe_integers db now (SearchParams.division q) ∧
  ∀ now' resp, GET db now' q resp → ∃ body', resp = Ok200 body'.
Proof.
  unfold GET, handle. intros H.
  destruct (Params.page (parse_params q)) as [|page| |]; try discriminate H.
  destruct (Params.limit (parse_params q)) as [|limit| |]; try discriminate H.
  destruct (Params.offset (parse_params q)) as [|offset| |]; try discriminate H.
  destruct (decide (offset ≤ MAX_BIGINT)); [|discriminate H].
  destruct H as (Hsafe & _). split; [done|].
  intros now' resp (_ & rows & _ & ->). eauto.
Qed.

Lemma GET_inv db now q page limit resp :
  Params.page (parse_params q) = Num page →
  Params.limit (parse_params q) = Num limit →
  (page - 1) * limit ≤ MAX_SAFE_INTEGER →
  GET db now q resp →
  ∃ sorted,
    order_by_created_at_desc (selected db now (SearchParams.division q)) sorted ∧
    resp = Ok200 (respond (SearchParams.division q) page limit
                          (limit_offset limit ((page - 1) * limit) sorted)
                          (countQuery db (SearchParams.division q))).
Proof.
  intros Hp Hl Hsafe H.
  pose proof (parse_params_offset q page limit Hp Hl Hsafe) as Ho.
  apply (GET_accepted db now q page limit _ resp Hp Hl Ho) in H as [_ H]; [done|].
  rewrite MAX_SAFE_INTEGER_eq in Hsafe. rewrite MAX_BIGINT_eq. lia.
Qed.

Lemma GET_total db now q page limit :
  Params.page (parse_params q) = Num page →
  Params.limit (parse_params q) = Num limit →
  (page - 1) * limit ≤ MAX_SAFE_INTEGER →
  within_safe_integers db now (SearchParams.division q) →
  ∃ body, GET db now q (Ok200 body).
Proof.
  intros Hp Hl Hoff Hsafe. pose proof (GET_exec_sound db now q Hsafe) as H.
  unfold GET_exec, handle_exec in H.
  rewrite (parse_params_offset q page limit Hp Hl Hoff), Hp, Hl in H.
  rewrite decide_True in H; [eauto|].
  rewrite MAX_SAFE_INTEGER_eq in Hoff. rewrite MAX_BIGINT_eq. lia.
Qed.

Lemma elem_of_selected db now p1 r :
  r ∈ selected db now p1 ↔
  ∃ j, j ∈ from_clause db now ∧ holds (where_clause p1 j) ∧ r = select_list now j.
Proof.
  unfold selected. rewrite list_elem_of_fmap. split.
  - intros (j & -> & [Hw Hj]%list_elem_of_filter). eauto.
  - intros (j & Hj & Hw & ->). exists j. by rewrite list_elem_of_filter.
Qed.

Lemma elem_of_ordered input output r :
  order_by_created_at_desc input output → r ∈ output ↔ r ∈ input.
Proof. intros [Hperm _]. by rewrite Hperm. Qed.

Lemma elem_of_users_body db now q body U :
  GET db now q (Ok200 body) →
  U ∈ Body.users body →
  ∃ j, j ∈ from_clause db now ∧
       holds (where_clause (SearchParams.division q) j) ∧
       U = to_user (select_list now j).
Proof.
  intros (page & limit & sorted & _ & _ & Hs & ->)%GET_ok_inv. simpl.
  intros (r & -> & Hr%elem_of_limit_offset)%list_elem_of_fmap.
  apply (elem_of_ordered _ _ _ Hs), elem_of_selected in Hr
    as (j & Hj & Hw & ->).
  eauto.
Qed.

(** ** Rows of the [FROM] clause *)

Lemma elem_of_from_clause db now j :
  j ∈ from_clause db now ↔
    J.u j ∈ users db ∧
    J.a j ∈ left_matches
      (filter (λ a, Users.auth_id (J.u j) = Some (Auth.id a)) (auth db)) ∧
    J.ur j ∈ left_matches
      (filter (λ ur, Users.id (J.u j) = UserRoles.user_id ur) (user_roles db)) ∧
    J.ud j ∈ left_matches
      (filter (λ ud, Users.id (J.u j) = UserDivisions.user_id ud) (user_divisions db)) ∧
    J.ua j ∈ left_matches
      (filter (λ ua, Users.id (J.u j) = Agg.user_id ua) (user_aggregates db now)) ∧
    J.ucr j ∈ left_matches
      (filter (λ ucr, Users.id (J.u j) = Rank.id ucr) (user_creation_rank db)) ∧
    J.tc j = COUNT (users db).
Proof.
  unfold from_clause, joins, total_users_count. split.
  - intros (u & (a & (ur & (ud & (ua & (ucr & (tc & Hj & Htc)%list_elem_of_bind
      & Hucr)%list_elem_of_bind & Hua)%list_elem_of_bind & Hud)%list_elem_of_bind
      & Hur)%list_elem_of_bind & Ha)%list_elem_of_bind & Hu)%list_elem_of_bind.
    apply list_elem_of_singleton in Hj as ->.
    apply list_elem_of_singleton in Htc as ->. done.
  - destruct j as [u a ur ud ua ucr tc]. simpl.
    intros (Hu & Ha & Hur & Hud & Hua & Hucr & ->).
    apply list_elem_of_bind. exists u. split; [|done].
    apply list_elem_of_bind. exists a. split; [|done].
    apply list_elem_of_bind. exists ur. split; [|done].
    apply list_elem_of_bind. exists ud. split; [|done].
    apply list_elem_of_bind. exists ua. split; [|done].
    apply list_elem_of_bind. exists ucr. split; [|done].
    apply list_elem_of_here.
Qed.



Lemma user_aggregates_keys db now :
  Agg.user_id <$> user_aggregates db now = remove_dups (UserLogs.user_id <$> user_logs db).
Proof.
  unfold user_aggregates. rewrite <- list_fmap_compose. apply list_fmap_id.
Qed.

Lemma user_creation_rank_keys db :
  Rank.id <$> user_creation_rank db = Users.id <$> users db.
Proof. unfold user_creation_rank. by rewrite <- list_fmap_compose. Qed.



(** ** The [WHERE] predicate *)

Lemma division_predicate_holds (p1 dn : option string) :
  holds (division_predicate p1 dn) ↔
    p1 = None ∨ p1 = Some "all" ∨ (dn = p1 ∧ is_Some p1).
Proof.
  unfold division_predicate, sql_is_null, sql_eq.
  destruct p1 as [f|]; [|simpl; split; [by left | done]].
  rewrite (bool_decide_eq_false_2 (Some f = None)) by done.
  destruct (decide (f = "all")) as [->|Hall].
  { rewrite bool_decide_eq_true_2 by done.
    destruct dn; simpl; (split; [by right; left | done]). }
  rewrite (bool_decide_eq_false_2 (f = "all")) by done.
  destruct dn as [d|]; simpl.
  - destruct (decide (d = f)) as [->|Hd].
    + rewrite bool_decide_eq_true_2 by done. simpl.
      split; [intros _; right; right; eauto | done].
    + rewrite bool_decide_eq_false_2 by done. simpl.
      split; [done|]. intros [?|[?|[? _]]]; congruence.
  - split; [done|]. intros [?|[?|[? _]]]; congruence.
Qed.





(** ** The window count *)

Lemma window_count_peers db u :
  window_count_created_desc db u =
    legacy_newer_users db u +
    COUNT (filter (λ v, Users.created_at u = Users.created_at v) (users db)).
Proof.
  unfold window_count_created_desc, legacy_newer_users, COUNT.
  induction (users db) as [|v l IH]; [done|].
  rewrite !filter_cons. repeat case_decide; simpl; lia.
Qed.

Lemma newer_users_distinct db u :
  NoDup (Users.created_at <$> users db) →
  u ∈ users db →
  window_count_created_desc db u - 1 = legacy_newer_users db u.
Proof.
  intros Hnd Hu. rewrite window_count_peers.
  rewrite (filter_key_NoDup Users.created_at (users db) u Hnd Hu).
  unfold COUNT. simpl. lia.
Qed.

(** ** Datasets with at most one division row per profile *)

Lemma matching_division db p1 u :
  profile_matches db p1 u →
  ∃ ud,
    ud ∈ left_matches
      (filter (λ ud, Users.id u = UserDivisions.user_id ud) (user_divisions db)) ∧
    holds (division_predicate p1 (ud ≫= UserDivisions.division_name)).
Proof.
  intros [->|[->|Hex]].
  - destruct (left_matches_inhabited
      (filter (λ ud, Users.id u = UserDivisions.user_id ud) (user_divisions db)))
      as [ud Hud].
    exists ud. split; [done|]. apply division_predicate_holds. by left.
  - destruct (left_matches_inhabited
      (filter (λ ud, Users.id u = UserDivisions.user_id ud) (user_divisions db)))
      as [ud Hud].
    exists ud. split; [done|]. apply division_predicate_holds. right. by left.
  - apply Exists_exists in Hex as (ud & Hud & Hid & Hname & Hsome).
    exists (Some ud). split.
    + apply elem_of_left_matches. right. exists ud. split; [done|].
      by apply list_elem_of_filter.
    + apply division_predicate_holds. right. right. done.
Qed.

(** The count query counts every matching profile at least once. *)
Lemma countQuery_lower db p1 :
  Z.of_nat (length (filter (profile_matches db p1) (users db))) ≤ countQuery db p1.
Proof.
  unfold countQuery, COUNT, count_from. apply inj_le.
  induction (users db) as [|u l IH]; [done|].
  rewrite bind_cons, filter_app, length_app, filter_cons.
  destruct (decide (profile_matches db p1 u)) as [Hm|_]; [|lia].
  destruct (matching_division db p1 u Hm) as (ud & Hud & Hw).
  assert ((u, ud) ∈ filter
    (λ r : Users.t * option UserDivisions.t,
       holds (division_predicate p1 (r.2 ≫= UserDivisions.division_name)))
    (count_joins db u)) as Hin.
  { apply list_elem_of_filter. split; [done|]. unfold count_joins.
    apply list_elem_of_bind. exists ud. split; [apply list_elem_of_here | done]. }
  destruct (filter _ (count_joins db u)); [by apply elem_of_nil in Hin|].
  simpl. lia.
Qed.

Section one_division.
Context (db : database).
Hypothesis Hdiv : NoDup (UserDivisions.user_id <$> user_divisions db).

Lemma count_joins_unique u :
  count_joins db u =
    [ (u, head (filter (λ ud, Users.id u = UserDivisions.user_id ud) (user_divisions db))) ].
Proof.
  unfold count_joins.
  rewrite (left_matches_unique UserDivisions.user_id (user_divisions db) (Users.id u))
    by done.
  by rewrite bind_singleton.
Qed.

(** With one division row at most, the row the join picks decides whether
    the profile matches. *)
Lemma matches_unique_division p1 u :
  holds (division_predicate p1
           (head (filter (λ ud, Users.id u = UserDivisions.user_id ud) (user_divisions db))
              ≫= UserDivisions.division_name)) ↔
  profile_matches db p1 u.
Proof.
  rewrite division_predicate_holds. unfold profile_matches.
  rewrite Exists_exists.
  destruct (filter_key_at_most_one UserDivisions.user_id (user_divisions db)
              (Users.id u) Hdiv) as [Hnil|(x & Hx & Hk & Hfx)].
  - rewrite Hnil. simpl. split.
    + intros [?|[?|[<- [? [=]]]]]; auto.
    + intros [?|[?|(ud & Hud & Hid & _)]]; auto.
      assert (ud ∈ filter (λ ud, Users.id u = UserDivisions.user_id ud)
                          (user_divisions db)) as Hin
        by (by apply list_elem_of_filter).
      rewrite Hnil in Hin. by apply elem_of_nil in Hin.
  - rewrite Hfx. simpl. split.
    + intros [?|[?|[Hname Hsome]]]; auto.
      right. right. exists x. done.
    + intros [?|[?|(ud & Hud & Hid & Hname & Hsome)]]; auto.
      assert (ud ∈ filter (λ ud, Users.id u = UserDivisions.user_id ud)
                          (user_divisions db)) as Hin
        by (by apply list_elem_of_filter).
      rewrite Hfx in Hin. apply list_elem_of_singleton in Hin as ->. auto.
Qed.

Lemma countQuery_matching p1 :
  countQuery db p1 = Z.of_nat (length (filter (profile_matches db p1) (users db))).
Proof.
  unfold countQuery, COUNT, count_from.
  rewrite (bind_singletons _ _ _ count_joins_unique).
  f_equal. apply length_filter_fmap. intros u. simpl.
  apply matches_unique_division.
Qed.

End one_division.

(** ** Datasets with keys and at most one satellite row per profile *)

#[local] Instance created_desc_total : Total created_desc.
Proof. intros u1 u2. unfold created_desc. lia. Qed.

#[local] Instance created_desc_trans : Transitive created_desc.
Proof. intros u1 u2 u3. unfold created_desc. lia. Qed.

Section one_to_one.
Context (db : database) (now : timestamp).
Hypothesis Hpk : primary_keys db.
Hypothesis Hone : at_most_one_satellite db.

Lemma joins_unique u : joins db now u = [the_join db now u].
Proof.
  pose proof Hpk as [Hid Hauth]. pose proof Hone as [Hrole Hdiv]. unfold joins.
  rewrite (left_matches_unique (λ a, Some (Auth.id a)) (auth db) (Users.auth_id u))
    by (rewrite (list_fmap_compose Auth.id Some); by apply (NoDup_fmap_2 Some)).
  rewrite bind_singleton.
  rewrite (left_matches_unique UserRoles.user_id (user_roles db) (Users.id u)) by done.
  rewrite bind_singleton.
  rewrite (left_matches_unique UserDivisions.user_id (user_divisions db) (Users.id u))
    by done.
  rewrite bind_singleton.
  rewrite (left_matches_unique Agg.user_id (user_aggregates db now) (Users.id u))
    by (rewrite user_aggregates_keys; apply NoDup_remove_dups).
  rewrite bind_singleton.
  rewrite (left_matches_unique Rank.id (user_creation_rank db) (Users.id u))
    by (by rewrite user_creation_rank_keys).
  rewrite bind_singleton. unfold total_users_count. by rewrite bind_singleton.
Qed.

Lemma from_clause_unique : from_clause db now = the_join db now <$> users db.
Proof. unfold from_clause. apply bind_singletons, joins_unique. Qed.

(** The selected rows are the matching profiles, one row each, in scan
    order. *)
Lemma selected_unique p1 :
  selected db now p1 =
    select_list now ∘ the_join db now <$> filter (profile_matches db p1) (users db).
Proof.
  unfold selected. rewrite from_clause_unique.
  rewrite (filter_fmap_iff _ (profile_matches db p1)).
  - by rewrite <- list_fmap_compose.
  - intros u. apply (matches_unique_division db (proj2 Hone)).
Qed.

Lemma selected_ids p1 :
  Row.id <$> selected db now p1 = Users.id <$> filter (profile_matches db p1) (users db).
Proof. rewrite selected_unique. by rewrite <- list_fmap_compose. Qed.

Lemma selected_ids_NoDup p1 : NoDup (Row.id <$> selected db now p1).
Proof.
  rewrite selected_ids.
  apply (sublist_NoDup _ (Users.id <$> users db)); [apply Hpk|].
  apply (fmap_sublist Users.id), sublist_filter.
Qed.

Lemma rank_of_profile u :
  u ∈ users db →
  head (filter (λ ucr, Users.id u = Rank.id ucr) (user_creation_rank db)) =
    Some {| Rank.id := Users.id u;
            Rank.newer_users := window_count_created_desc db u - 1 |}.
Proof.
  pose proof Hpk as [Hid _]. intros Hu. unfold user_creation_rank.
  rewrite (filter_fmap_iff _ (λ v, Users.id u = Users.id v)) by done.
  by rewrite (filter_key_NoDup Users.id (users db) u Hid Hu).
Qed.

(** From here on creation times are pairwise distinct as well. *)
Hypothesis Hnd : NoDup (Users.created_at <$> users db).

Lemma selected_created_NoDup p1 : NoDup (Row.created_at <$> selected db now p1).
Proof.
  rewrite selected_unique, <- list_fmap_compose.
  apply (sublist_NoDup _ (Users.created_at <$> users db)); [done|].
  apply (fmap_sublist Users.created_at), sublist_filter.
Qed.

(** Distinct sort keys leave one admissible order. *)
Lemma ordered_unique p1 s1 s2 :
  order_by_created_at_desc (selected db now p1) s1 →
  order_by_created_at_desc (selected db now p1) s2 →
  s1 = s2.
Proof.
  intros [Hp1 Hs1] [Hp2 Hs2].
  apply (Sorted_unique_strong newest_first); [|done..|by rewrite Hp1, Hp2].
  intros x1 x2 Hx1 Hx2 H12 H21.
  apply (NoDup_fmap_eq Row.created_at (selected db now p1)).
  - apply selected_created_NoDup.
  - by rewrite <- Hp1.
  - by rewrite <- Hp2.
  - unfold newest_first in *. lia.
Qed.

(** That order is the order of the matching profiles by creation time,
    whatever the time of the request. *)
Lemma ordered_canonical p1 sorted :
  order_by_created_at_desc (selected db now p1) sorted →
  sorted = select_list now ∘ the_join db now <$>
             merge_sort created_desc (filter (profile_matches db p1) (users db)).
Proof.
  intros Hs. apply (ordered_unique p1); [done|]. split.
  - rewrite selected_unique. apply fmap_Permutation, merge_sort_Permutation.
  - apply (Sorted_fmap _ created_desc newest_first); [done|].
    apply (Sorted_merge_sort created_desc).
Qed.

(** Away from ties the window count is the legacy subquery. *)
Lemma newer_users_of_row j :
  j ∈ from_clause db now →
  Row.newer_users (select_list now j) = Some (legacy_newer_users db (J.u j)).
Proof.
  rewrite from_clause_unique. intros (u & -> & Hu)%list_elem_of_fmap. simpl.
  rewrite (rank_of_profile u Hu). simpl.
  by rewrite (newer_users_distinct db u Hnd Hu).
Qed.

End one_to_one.

(** ** Responses over the sample data *)

(** Runs the handler on sample data. *)
Ltac by_execution :=
  match goal with
  | |- GET ?db ?now ?q _ => exact (GET_exec_sound db now q ltac:(by_computation))
  end.

Lemma demo_GET : GET demo_db demo_now demo_q (Ok200 demo_body).
Proof. by_execution. Qed.

Lemma demo_bob_listed : demo_bob ∈ Body.users demo_body.
Proof. apply list_elem_of_here. Qed.

Lemma two_roles_GET : GET two_roles_db demo_now no_params (Ok200 two_roles_body).
Proof. by_execution. Qed.

Lemma tie_rows_ordered :
  order_by_created_at_desc (selected tie_db demo_now None) tie_rows.
Proof. split; [done | by_computation]. Qed.

Lemma tie_rows_swapped_ordered :
  order_by_created_at_desc (selected tie_db demo_now None) tie_rows_swapped.
Proof. split; [apply perm_swap | by_computation]. Qed.

(** * The list operation *)

(** ** Duplicate satellite rows *)

(** C1, as the code has it. When [users.id] and [auth.id] are keys and every
    profile has at most one role row and at most one division row, no
    profile is listed twice in a page. [totalCount] is never less than the
    number of profiles that match the filter, and is that number when every
    profile has at most one division row. *)
Theorem one_row_per_profile db now q body :
  GET db now q (Ok200 body) →
  let matching := filter (profile_matches db (SearchParams.division q)) (users db) in
  (primary_keys db → at_most_one_satellite db →
   NoDup (User.id <$> Body.users body)) ∧
  Z.of_nat (length matching) ≤ Pagination.totalCount (Body.pagination body) ∧
  (NoDup (UserDivisions.user_id <$> user_divisions db) →
   Pagination.totalCount (Body.pagination body) = Z.of_nat (length matching)).
Proof.
  intros (page & limit & sorted & _ & _ & [Hperm _] & ->)%GET_ok_inv.
  simpl. split; [|split].
  - intros Hpk Hone. rewrite <- list_fmap_compose.
    apply (sublist_NoDup _ (Row.id <$> sorted)).
    + rewrite Hperm. by apply selected_ids_NoDup.
    + apply (fmap_sublist Row.id), limit_offset_sublist.
  - apply countQuery_lower.
  - intros Hdiv. by apply countQuery_matching.
Qed.

Lemma one_row_per_profile_witness :
  primary_keys demo_db ∧
  at_most_one_satellite demo_db ∧
  GET demo_db demo_now demo_q (Ok200 demo_body) ∧
  NoDup (User.id <$> Body.users demo_body) ∧
  Pagination.totalCount (Body.pagination demo_body) = 2.
Proof.
  assert (Hpk : primary_keys demo_db) by by_computation.
  assert (Hone : at_most_one_satellite demo_db) by by_computation.
  split; [exact Hpk|]. split; [exact Hone|]. split; [exact demo_GET|].
  destruct (one_row_per_profile demo_db demo_now demo_q demo_body demo_GET)
    as (Hrows & _ & Hcount).
  split; [exact (Hrows Hpk Hone) | exact (Hcount (proj2 Hone))].
Defined.

(** A profile with two role rows is listed twice while [totalCount] is 1; a
    profile with two division rows is listed twice and counted twice. *)
Lemma duplicate_satellite_rows_counterexample :
  length (users two_roles_db) = 1%nat ∧
  GET two_roles_db demo_now no_params (Ok200 two_roles_body) ∧
  (∀ resp, GET two_roles_db demo_now no_params resp →
     ∃ body, resp = Ok200 body ∧
             User.id <$> Body.users body = [1; 1] ∧
             Pagination.totalCount (Body.pagination body) = 1) ∧
  length (users two_divisions_db) = 1%nat ∧
  GET two_divisions_db demo_now no_params (Ok200 two_divisions_body) ∧
  (∀ resp, GET two_divisions_db demo_now no_params resp →
     ∃ body, resp = Ok200 body ∧
             User.id <$> Body.users body = [1; 1] ∧
             Pagination.totalCount (Body.pagination body) = 2).
Proof.
  assert (Hids : ∀ db, Row.id <$> selected db demo_now None = [1; 1] →
            ∀ resp, GET db demo_now no_params resp →
              ∃ body, resp = Ok200 body ∧
                      User.id <$> Body.users body = [1; 1] ∧
                      Pagination.totalCount (Body.pagination body) = countQuery db None).
  { intros db Hsel resp (sorted & [Hperm _] & ->)%(GET_inv _ _ _ 1 50); [|done..].
    eexists. split; [done|]. split; [|done]. simpl.
    unfold limit_offset. rewrite drop_0, take_ge.
    - rewrite <- list_fmap_compose. symmetry.
      apply (replicate_Permutation 2 1).
      change (replicate 2 1) with [1; 1]. rewrite <- Hsel.
      by apply (fmap_Permutation Row.id).
    - rewrite Hperm, <- (length_fmap Row.id).
      change (SearchParams.division no_params) with (@None string).
      rewrite Hsel. simpl. lia. }
  split; [done|]. split; [exact two_roles_GET|].
  split; [exact (Hids two_roles_db eq_refl)|].
  split; [done|].
  split; [by_execution|].
  exact (Hids two_divisions_db eq_refl).
Qed.

(** ** Order of the rows and coverage of the pages *)

Lemma limit_offset_fmap {A B} (f : A → B) (limit offset : Z) (l : list A) :
  f <$> limit_offset limit offset l = limit_offset limit offset (f <$> l).
Proof. unfold limit_offset. by rewrite fmap_take, fmap_drop. Qed.

Lemma Sorted_by_creation_desc (l : list User.t) :
  Sorted (λ t1 t2 : timestamp, t2 ≤ t1) (User.createdAt <$> l) →
  Sorted by_creation_desc l.
Proof.
  induction l as [|U l IH]; [constructor|].
  rewrite fmap_cons. intros [Hl Hhd]%Sorted_inv. constructor; [by apply IH|].
  destruct l as [|U' l]; constructor.
  by apply HdRel_inv in Hhd.
Qed.

(** C2, as the code has it. [qs k] is a request for page [k] with [limit]
    rows per page and filter [f], answered at time [nows k] with
    [pages k]. The rows of every page are ordered by creation time, newest
    first; no second key orders profiles created at the same instant. When
    creation times are pairwise distinct (and the keys and the at-most-one
    cardinality hold), a request repeated at any other time lists the same
    profiles in the same order with the same pagination metadata, repeated
    at the same time it has the same response, and pages 1 to [totalPages],
    one after the other, are ordered newest first and list every matching
    profile exactly once. *)
Theorem pages_ordered_and_cover db f limit n
    (qs : Z → SearchParams.t) (nows : Z → timestamp) (pages : Z → Body.t) :
  1 ≤ n →
  (∀ k, 1 ≤ k ≤ n →
     SearchParams.division (qs k) = f ∧
     Params.page (parse_params (qs k)) = Num k ∧
     Params.limit (parse_params (qs k)) = Num limit ∧
     GET db (nows k) (qs k) (Ok200 (pages k))) →
  (∀ k, 1 ≤ k ≤ n → Sorted by_creation_desc (Body.users (pages k))) ∧
  (primary_keys db → at_most_one_satellite db →
   NoDup (Users.created_at <$> users db) →
   (∀ k now' body', 1 ≤ k ≤ n →
      GET db now' (qs k) (Ok200 body') →
      User.id <$> Body.users body' = User.id <$> Body.users (pages k) ∧
      Body.pagination body' = Body.pagination (pages k)) ∧
   (∀ k resp, 1 ≤ k ≤ n →
      GET db (nows k) (qs k) resp → resp = Ok200 (pages k)) ∧
   let totalPages := Pagination.totalPages (Body.pagination (pages 1)) in
   (totalPages ≤ n →
    let all := concat ((λ k, Body.users (pages k)) <$> seqZ 1 totalPages) in
    Sorted by_creation_desc all ∧
    NoDup (User.id <$> all) ∧
    User.id <$> all ≡ₚ Users.id <$> filter (profile_matches db f) (users db))).
Proof.
  intros Hn Hreq. split.
  { intros k Hk. destruct (Hreq k Hk) as (_ & _ & _ & HGET).
    apply GET_ok_inv in HGET as (page & limit' & sorted & _ & _ & [_ Hs] & ->).
    simpl. apply (Sorted_fmap _ newest_first by_creation_desc); [done|].
    by apply Sorted_limit_offset. }
  intros Hpk Hone Hnd.
  set (S := merge_sort created_desc (filter (profile_matches db f) (users db))).
  assert (Hlimit : 1 ≤ limit).
  { destruct (Hreq 1 ltac:(lia)) as (_ & Hp & Hl & _).
    by destruct (parse_params_ranges _ _ _ Hp Hl) as (_ & ? & _). }
  assert (Hpage : ∀ k now' body', 1 ≤ k ≤ n →
            GET db now' (qs k) (Ok200 body') →
            body' = respond f k limit
                      (limit_offset limit ((k - 1) * limit)
                         (select_list now' ∘ the_join db now' <$> S))
                      (countQuery db f)).
  { intros k now' body' Hk HGET. destruct (Hreq k Hk) as (Hf & Hp & Hl & _).
    apply GET_ok_inv in HGET as (page & limit' & sorted & Hp' & Hl' & Hs & ->).
    rewrite Hp in Hp'. injection Hp' as <-. rewrite Hl in Hl'. injection Hl' as <-.
    rewrite Hf in *.
    by rewrite (ordered_canonical db now' Hpk Hone Hnd f sorted Hs). }
  assert (Hproj : ∀ {X} (π : User.t → X) (πu : Users.t → X),
            (∀ now' u, π (to_user (select_list now' (the_join db now' u))) = πu u) →
            ∀ k now' body', 1 ≤ k ≤ n →
              GET db now' (qs k) (Ok200 body') →
              π <$> Body.users body' = limit_offset limit ((k - 1) * limit) (πu <$> S)).
  { intros X π πu Hπ k now' body' Hk HGET.
    rewrite (Hpage k now' body' Hk HGET). simpl.
    rewrite <- list_fmap_compose, limit_offset_fmap, <- list_fmap_compose.
    f_equal. apply list_fmap_ext. intros i u _. apply Hπ. }
  assert (Hnow : ∀ k, 1 ≤ k ≤ n → GET db (nows k) (qs k) (Ok200 (pages k))).
  { intros k Hk. by destruct (Hreq k Hk) as (_ & _ & _ & ?). }
  split; [|split].
  { intros k now' body' Hk HGET. split.
    - rewrite (Hproj _ User.id Users.id ltac:(done) k now' body' Hk HGET).
      by rewrite (Hproj _ User.id Users.id ltac:(done) k (nows k) (pages k) Hk (Hnow k Hk)).
    - by rewrite (Hpage k now' body' Hk HGET), (Hpage k _ _ Hk (Hnow k Hk)). }
  { intros k resp Hk HGET.
    destruct (GET_ok_safe _ _ _ _ (Hnow k Hk)) as [_ Hok].
    destruct (Hok _ _ HGET) as [body' ->]. f_equal.
    rewrite (Hpage k _ _ Hk HGET). symmetry. apply (Hpage k _ _ Hk (Hnow k Hk)). }
  intros totalPages Htp all.
  assert (HS : S ≡ₚ filter (profile_matches db f) (users db))
    by apply merge_sort_Permutation.
  assert (Hlen : Z.of_nat (length S) = countQuery db f).
  { rewrite HS. symmetry. apply (countQuery_matching db (proj2 Hone)). }
  assert (Htotal : totalPages = Math_ceil_div (countQuery db f) limit).
  { subst totalPages. by rewrite (Hpage 1 _ _ ltac:(lia) (Hnow 1 ltac:(lia))). }
  assert (Hall : ∀ {X} (π : User.t → X) (πu : Users.t → X),
            (∀ now' u, π (to_user (select_list now' (the_join db now' u))) = πu u) →
            π <$> all = πu <$> S).
  { intros X π πu Hπ. subst all.
    rewrite fmap_concat, <- list_fmap_compose.
    trans (concat ((λ k, limit_offset limit ((k - 1) * limit) (πu <$> S)) <$>
                   seqZ 1 totalPages)).
    - f_equal. apply list_fmap_ext. intros i k Hik.
      apply lookup_seqZ in Hik as [-> Hi]. simpl.
      apply (Hproj _ π πu Hπ _ (nows (1 + Z.of_nat i))); [lia|]. apply Hnow. lia.
    - apply concat_pages_Z; [lia|]. rewrite length_fmap, Hlen, Htotal.
      apply (Math_ceil_div_spec (countQuery db f) limit). lia. }
  split; [|split].
  - apply Sorted_by_creation_desc.
    rewrite (Hall _ User.createdAt Users.created_at ltac:(done)).
    apply (Sorted_fmap _ created_desc (λ t1 t2 : timestamp, t2 ≤ t1)); [done|].
    apply (Sorted_merge_sort created_desc).
  - rewrite (Hall _ User.id Users.id ltac:(done)), HS.
    apply (sublist_NoDup _ (Users.id <$> users db)); [apply Hpk|].
    apply (fmap_sublist Users.id), sublist_filter.
  - by rewrite (Hall _ User.id Users.id ltac:(done)), HS.
Qed.

Lemma pages_ordered_and_cover_witness :
  1 ≤ 2 ∧
  (∀ k, 1 ≤ k ≤ 2 →
     SearchParams.division (tech_page k) = Some "Tech" ∧
     Params.page (parse_params (tech_page k)) = Num k ∧
     Params.limit (parse_params (tech_page k)) = Num 1 ∧
     GET demo_db (tech_time k) (tech_page k) (Ok200 (tech_pages k))) ∧
  primary_keys demo_db ∧
  at_most_one_satellite demo_db ∧
  NoDup (Users.created_at <$> users demo_db) ∧
  tech_time 1 ≠ tech_time 2 ∧
  Pagination.totalPages (Body.pagination (tech_pages 1)) = 2 ∧
  User.id <$> concat ((λ k, Body.users (tech_pages k)) <$> seqZ 1 2) ≡ₚ
    Users.id <$> filter (profile_matches demo_db (Some "Tech")) (users demo_db).
Proof.
  assert (Hn : 1 ≤ 2) by lia.
  assert (Hreq : ∀ k, 1 ≤ k ≤ 2 →
            SearchParams.division (tech_page k) = Some "Tech" ∧
            Params.page (parse_params (tech_page k)) = Num k ∧
            Params.limit (parse_params (tech_page k)) = Num 1 ∧
            GET demo_db (tech_time k) (tech_page k) (Ok200 (tech_pages k))).
  { intros k Hk. assert (k = 1 ∨ k = 2) as [->| ->] by lia.
    - split; [reflexivity|]. split; [reflexivity|]. split; [reflexivity|].
      exact (GET_exec_sound demo_db (tech_time 1) (tech_page 1) ltac:(by_computation)).
    - split; [reflexivity|]. split; [reflexivity|]. split; [reflexivity|].
      exact (GET_exec_sound demo_db (tech_time 2) (tech_page 2) ltac:(by_computation)). }
  assert (Hpk : primary_keys demo_db) by by_computation.
  assert (Hone : at_most_one_satellite demo_db) by by_computation.
  assert (Hnd : NoDup (Users.created_at <$> users demo_db)) by by_computation.
  split; [exact Hn|]. split; [exact Hreq|]. split; [exact Hpk|].
  split; [exact Hone|]. split; [exact Hnd|]. split; [discriminate|].
  split; [reflexivity|].
  destruct (pages_ordered_and_cover demo_db (Some "Tech") 1 2 tech_page tech_time
              tech_pages Hn Hreq) as [_ Hcover].
  destruct (Hcover Hpk Hone Hnd) as (_ & _ & Hall).
  destruct (Hall ltac:(vm_compute; discriminate)) as (_ & _ & Hperm).
  exact Hperm.
Defined.

(** Two profiles created at the same instant: the same request has two
    admissible answers in opposite orders, and with one row per page both
    pages may list profile 1 while profile 4 is on neither. *)
Lemma tie_order_counterexample :
  Users.created_at ann = Users.created_at dan ∧
  GET tie_db demo_now no_params (Ok200 tie_body) ∧
  GET tie_db demo_now no_params (Ok200 tie_body_swapped) ∧
  User.id <$> Body.users tie_body = [1; 4] ∧
  User.id <$> Body.users tie_body_swapped = [4; 1] ∧
  handle tie_db demo_now (params_of None 1 1) (Ok200 tie_page1) ∧
  handle tie_db demo_now (params_of None 2 1) (Ok200 tie_page2) ∧
  Pagination.totalPages (Body.pagination tie_page1) = 2 ∧
  User.id <$> Body.users tie_page1 = [1] ∧
  User.id <$> Body.users tie_page2 = [1].
Proof.
  assert (Hsafe : within_safe_integers tie_db demo_now None) by by_computation.
  split; [reflexivity|].
  split; [by_execution|].
  split.
  { apply (GET_accepted tie_db demo_now no_params 1 50 0); [done..|].
    split; [done|].
    exists tie_rows_swapped. split; [exact tie_rows_swapped_ordered | reflexivity]. }
  split; [reflexivity|]. split; [reflexivity|].
  split.
  { apply handle_params_of; [done|]. split; [done|].
    exists tie_rows. split; [exact tie_rows_ordered | reflexivity]. }
  split.
  { apply handle_params_of; [done|]. split; [done|].
    exists tie_rows_swapped. split; [exact tie_rows_swapped_ordered | reflexivity]. }
  done.
Qed.

(** ** Profiles without activity *)



(** ** Creation rank *)

(** C4, at two profiles created at the same instant: the handler reports
    one newer profile for each of them, while no profile is strictly newer
    than either (the legacy subquery gives 0 for both). *)
Theorem newer_users_counts_peers :
  Users.created_at ann = Users.created_at dan ∧
  Rank.newer_users <$> user_creation_rank tie_db = [1; 1] ∧
  legacy_newer_users tie_db <$> users tie_db = [0; 0] ∧
  GET tie_db demo_now no_params (Ok200 tie_body) ∧
  (λ U, (User.id U, User.newerUsers U)) <$> Body.users tie_body =
    [(1, Some 1); (4, Some 1)].
Proof.
  split; [reflexivity|]. split; [reflexivity|]. split; [reflexivity|].
  split; [|reflexivity].
  by_execution.
Qed.

(** Whatever order the store picks for the two peers, both carry rank 1. *)
Lemma tie_rank_every_response resp :
  GET tie_db demo_now no_params resp →
  ∃ body, resp = Ok200 body ∧
          User.newerUsers <$> Body.users body = [Some 1; Some 1].
Proof.
  intros (sorted & [Hperm _] & ->)%(GET_inv _ _ _ 1 50); [|done..].
  eexists. split; [done|]. simpl.
  unfold limit_offset. rewrite drop_0, take_ge.
  - rewrite <- list_fmap_compose. symmetry.
    apply (replicate_Permutation 2 (Some 1)). by rewrite Hperm.
  - rewrite Hperm. simpl. lia.
Qed.

(** With distinct creation times every returned record carries the number
    of strictly newer profiles. *)
Lemma newerUsers_distinct db now q body U :
  primary_keys db → at_most_one_satellite db →
  NoDup (Users.created_at <$> users db) →
  GET db now q (Ok200 body) →
  U ∈ Body.users body →
  ∃ u, u ∈ users db ∧ Users.id u = User.id U ∧
       User.newerUsers U = Some (legacy_newer_users db u).
Proof.
  intros Hpk Hone Hnd HGET HU.
  destruct (elem_of_users_body _ _ _ _ _ HGET HU) as (j & Hj & _ & ->).
  exists (J.u j). split; [by apply elem_of_from_clause in Hj as [? _]|].
  split; [done|]. by apply newer_users_of_row.
Qed.

(** ** Pagination parameters *)




(** ** A filter value that names no division *)






(** ** Derived fields of a record *)

(** C7, as the code has it. Every returned record is the record of a
    profile whose bio, address and phone number it carries, and whose
    document it carries with the JSON document [null] read as null. Its
    completeness score is the step function of the number of non-null
    columns among bio, address, phone number and profile document of that
    profile: 0, 25, 50, 75, 100 for 0, 1, 2, 3, 4 of them; bio and address
    alone give 50. Unless the document is the JSON document [null], that is
    the number of non-null fields of the record. *)
Theorem profileCompleteness_steps db now q body U :
  GET db now q (Ok200 body) →
  U ∈ Body.users body →
  ∃ u, u ∈ users db ∧ Users.id u = User.id U ∧
       User.bio U = Users.bio u ∧
       User.address U = Users.address u ∧
       User.phoneNumber U = Users.phone_number u ∧
       User.profileJson U = json_value (Users.profile_json u) ∧
       User.profileCompleteness U =
         match stored_non_null_count u with
         | 0%nat => 0
         | 1%nat => 25
         | 2%nat => 50
         | 3%nat => 75
         | _ => 100
         end ∧
       (is_Some (Users.bio u) → is_Some (Users.address u) →
        Users.phone_number u = None → Users.profile_json u = None →
        User.profileCompleteness U = 50) ∧
       (Users.profile_json u ≠ Some JNull →
        stored_non_null_count u = non_null_count U).
Proof.
  intros HGET HU.
  destruct (elem_of_users_body _ _ _ _ _ HGET HU) as (j & Hj & _ & ->).
  exists (J.u j). split; [by apply elem_of_from_clause in Hj as [? _]|].
  unfold stored_non_null_count, non_null_count. simpl.
  rewrite profile_completeness_case_steps.
  do 5 (split; [reflexivity|]).
  destruct (Users.bio (J.u j)), (Users.address (J.u j)),
    (Users.phone_number (J.u j)), (Users.profile_json (J.u j)) as [[]|];
    (split; [reflexivity|]);
    (split; [intros [? ?] [? ?] ? ?; by simplify_eq | by intros ?]).
Qed.

Lemma profileCompleteness_steps_witness :
  GET demo_db demo_now demo_q (Ok200 demo_body) ∧
  demo_bob ∈ Body.users demo_body ∧
  ∃ u, u ∈ users demo_db ∧ Users.id u = 2 ∧
       stored_non_null_count u = 1%nat ∧
       User.profileCompleteness demo_bob = 25.
Proof.
  split; [exact demo_GET|]. split; [exact demo_bob_listed|].
  destruct (profileCompleteness_steps demo_db demo_now demo_q demo_body demo_bob
              demo_GET demo_bob_listed)
    as (u & Hu & Hid & _ & _ & _ & _ & Hscore & _ & Hcount).
  exists u. split; [exact Hu|]. split; [exact Hid|].
  assert (Hn : stored_non_null_count u = 1%nat).
  { change (User.profileCompleteness demo_bob) with 25 in Hscore.
    destruct (stored_non_null_count u) as [|[|[|[|?]]]]; (discriminate Hscore || reflexivity). }
  split; [exact Hn | reflexivity].
Defined.

(** A profile with a bio, an address, no phone number and the JSON document
    [null]: the record carries two non-null fields of the four, and a score
    of 75. *)
Lemma json_null_counterexample :
  GET json_null_db demo_now no_params (Ok200 json_null_body) ∧
  (∀ resp, GET json_null_db demo_now no_params resp →
     ∃ body, resp = Ok200 body ∧ Body.users body = [json_null_record]) ∧
  is_Some (User.bio json_null_record) ∧
  is_Some (User.address json_null_record) ∧
  User.phoneNumber json_null_record = None ∧
  User.profileJson json_null_record = None ∧
  non_null_count json_null_record = 2%nat ∧
  User.profileCompleteness json_null_record = 75.
Proof.
  split; [by_execution|]. split; [|by vm_compute; eauto 10].
  intros resp (sorted & [Hperm _] & ->)%(GET_inv _ _ _ 1 50); [|done..].
  eexists. split; [done|]. simpl.
  change (selected json_null_db demo_now (SearchParams.division no_params))
    with [select_list demo_now (the_join json_null_db demo_now eve)] in Hperm.
  apply Permutation_singleton_r in Hperm as ->. reflexivity.
Qed.

Lemma legacy_profileCompleteness_agrees (user : Row.t) :
  Row.bio user ≠ Some "" → Row.address user ≠ Some "" →
  Row.phone_number user ≠ Some "" →
  truthy_json (Row.profile_json user) = bool_decide (is_Some (Row.profile_json user)) →
  legacy_profileCompleteness user =
    25 * (not_null_int (Row.bio user) + not_null_int (Row.address user) +
          not_null_int (Row.phone_number user) + not_null_int (Row.profile_json user)).
Proof.
  unfold legacy_profileCompleteness, truthy_string. intros Hb Ha Hp ->.
  destruct (Row.bio user) as [b|], (Row.address user) as [a|],
    (Row.phone_number user) as [p|], (Row.profile_json user) as [d|];
    rewrite ?bool_decide_eq_true_2 by (try congruence; eauto);
    rewrite ?(bool_decide_eq_false_2 (is_Some None)) by (by intros [? ?]);
    reflexivity.
Qed.

(** An empty bio is non-null but falsy: the legacy score does not count it. *)
Lemma legacy_profileCompleteness_empty_bio :
  Users.bio bob = Some "" ∧
  profile_completeness_case bob = 25 ∧
  legacy_profileCompleteness (select_list demo_now (the_join demo_db demo_now bob)) = 0.
Proof. done. Qed.

(** C8, as the code has it. Every returned record is the record of a
    profile whose full name and bio it carries, with the role of one of the
    profile's role rows or none. When the full name is not null, the display
    name is the full name followed by the role in parentheses, with the
    literal [no role] for an absent role; when the full name is null, the
    display name is null. The bio display is the bio, except that a null
    bio and an empty bio both give [No bio available]. *)
Theorem displayName_bioDisplay db now q body U :
  GET db now q (Ok200 body) →
  U ∈ Body.users body →
  (∃ u, u ∈ users db ∧ Users.id u = User.id U ∧
        User.fullName U = Users.full_name u ∧ User.bio U = Users.bio u ∧
        ∀ role, User.role U = Some role →
          ∃ ur, ur ∈ user_roles db ∧ UserRoles.user_id ur = Users.id u ∧
                UserRoles.role ur = Some role) ∧
  (∀ name, User.fullName U = Some name →
     User.displayName U =
       Some (name +:+ " (" +:+ default "no role" (User.role U) +:+ ")")) ∧
  (User.fullName U = None → User.displayName U = None) ∧
  User.bioDisplay U =
    match User.bio U with
    | None => "No bio available"
    | Some bio => if decide (bio = "") then "No bio available" else bio
    end.
Proof.
  intros HGET HU.
  destruct (elem_of_users_body _ _ _ _ _ HGET HU) as (j & Hj & _ & ->).
  apply elem_of_from_clause in Hj as (Hu & _ & Hur & _).
  simpl. split; [|split; [|split]].
  - exists (J.u j). do 4 (split; [done|]). intros role Hrole.
    destruct (J.ur j) as [ur|]; [|done]. simpl in Hrole.
    apply elem_of_left_matches in Hur as [[_ [=]]|(b & [= <-] & Hb)].
    apply list_elem_of_filter in Hb as [? ?]. exists ur. done.
  - intros name ->. simpl. unfold COALESCE. by rewrite !string_app_assoc.
  - by intros ->.
  - unfold COALESCE, NULLIF. destruct (Users.bio (J.u j)) as [bio|]; [|reflexivity].
    by destruct (decide (bio = "")).
Qed.

Lemma displayName_bioDisplay_witness :
  GET demo_db demo_now demo_q (Ok200 demo_body) ∧
  demo_bob ∈ Body.users demo_body ∧
  User.displayName demo_bob = Some "Bob (no role)" ∧
  User.bio demo_bob = Some "" ∧
  User.bioDisplay demo_bob = "No bio available".
Proof.
  split; [exact demo_GET|]. split; [exact demo_bob_listed|].
  destruct (displayName_bioDisplay demo_db demo_now demo_q demo_body demo_bob
              demo_GET demo_bob_listed) as (_ & Hname & _ & Hbio).
  split; [exact (Hname "Bob" eq_refl)|]. split; [reflexivity | exact Hbio].
Defined.

(** A profile without a full name and without a role: the display name is
    null, not a text that ends in [(no role)]. *)
Lemma null_full_name_counterexample :
  Users.full_name nameless = None ∧
  GET nameless_db demo_now no_params (Ok200 nameless_body) ∧
  (∀ resp, GET nameless_db demo_now no_params resp →
     ∃ body, resp = Ok200 body ∧ Body.users body = [nameless_record]) ∧
  User.role nameless_record = None ∧
  User.displayName nameless_record = None.
Proof.
  split; [reflexivity|]. split; [by_execution|]. split; [|done].
  intros resp (sorted & [Hperm _] & ->)%(GET_inv _ _ _ 1 50); [|done..].
  eexists. split; [done|]. simpl.
  change (selected nameless_db demo_now (SearchParams.division no_params))
    with [select_list demo_now (the_join nameless_db demo_now nameless)] in Hperm.
  apply Permutation_singleton_r in Hperm as ->. reflexivity.
Qed.

(** ** Pagination metadata *)

(** C9. In every response [totalPages] is the ceiling of
    [totalCount / limit], [hasNextPage] is [page < totalPages],
    [hasPreviousPage] is [page > 1], and [totalCount] is the result of the
    count query, which reads neither [limit] nor [offset]: two responses for
    the same filter carry the same [totalCount]. *)
Theorem pagination_metadata db now q body now' q' body' :
  GET db now q (Ok200 body) →
  GET db now' q' (Ok200 body') →
  SearchParams.division q' = SearchParams.division q →
  let pg := Body.pagination body in
  Pagination.totalCount pg = countQuery db (SearchParams.division q) ∧
  0 < Pagination.limit pg ∧
  (Pagination.totalPages pg - 1) * Pagination.limit pg < Pagination.totalCount pg ∧
  Pagination.totalCount pg ≤ Pagination.totalPages pg * Pagination.limit pg ∧
  Pagination.hasNextPage pg = bool_decide (Pagination.page pg < Pagination.totalPages pg) ∧
  Pagination.hasPreviousPage pg = bool_decide (Pagination.page pg > 1) ∧
  Pagination.totalCount (Body.pagination body') = Pagination.totalCount pg.
Proof.
  intros (page & limit & sorted & Hp & Hl & _ & ->)%GET_ok_inv.
  intros (page' & limit' & sorted' & _ & _ & _ & ->)%GET_ok_inv Hdiv.
  simpl. rewrite Hdiv.
  assert (0 < limit) as Hpos.
  { destruct (parse_params_ranges q page limit Hp Hl) as (_ & ? & _). lia. }
  pose proof (Math_ceil_div_spec (countQuery db (SearchParams.division q)) limit Hpos).
  repeat split; try done; lia.
Qed.

Lemma pagination_metadata_witness :
  GET demo_db demo_now demo_q (Ok200 demo_body) ∧
  GET demo_db demo_now demo_q_page2 (Ok200 demo_body_page2) ∧
  SearchParams.division demo_q_page2 = SearchParams.division demo_q ∧
  Pagination.totalCount (Body.pagination demo_body_page2) =
    Pagination.totalCount (Body.pagination demo_body).
Proof.
  assert (H2 : GET demo_db demo_now demo_q_page2 (Ok200 demo_body_page2))
    by by_execution.
  split; [exact demo_GET|]. split; [exact H2|]. split; [reflexivity|].
  apply (pagination_metadata demo_db demo_now demo_q demo_body
           demo_now demo_q_page2 demo_body_page2 demo_GET H2 eq_refl).
Defined.

(** ** Role and division counts *)

(** C10. On every returned record [roleCount] and [divisionCount] are the
    constant 1, whatever number of role and division rows the profile has. *)
Theorem roleCount_divisionCount_constant db now q body U :
  GET db now q (Ok200 body) →
  U ∈ Body.users body →
  User.roleCount U = 1 ∧ User.divisionCount U = 1.
Proof.
  intros HGET HU.
  by destruct (elem_of_users_body _ _ _ _ _ HGET HU) as (j & _ & _ & ->).
Qed.

Lemma roleCount_divisionCount_constant_witness :
  GET two_roles_db demo_now no_params (Ok200 two_roles_body) ∧
  two_roles_first ∈ Body.users two_roles_body ∧
  User.roleCount two_roles_first = 1 ∧ User.divisionCount two_roles_first = 1.
Proof.
  assert (HU : two_roles_first ∈ Body.users two_roles_body)
    by apply list_elem_of_here.
  split; [exact two_roles_GET|]. split; [exact HU|].
  exact (roleCount_divisionCount_constant two_roles_db demo_now no_params
           two_roles_body two_roles_first two_roles_GET HU).
Defined.

(** * Further properties of the handler *)

(** ** Size of a page *)

(** A page never holds more rows than the clamped limit, hence never more
    than [MAX_LIMIT]. *)
Theorem page_size_bound db now q body :
  GET db now q (Ok200 body) →
  Z.of_nat (length (Body.users body)) ≤ Pagination.limit (Body.pagination body) ∧
  Pagination.limit (Body.pagination body) ≤ MAX_LIMIT.
Proof.
  intros (page & limit & sorted & Hp & Hl & _ & ->)%GET_ok_inv. simpl.
  destruct (parse_params_ranges q page limit Hp Hl) as [_ [? ?]].
  split; [|done]. unfold limit_offset. rewrite length_fmap, length_take. lia.
Qed.

Lemma page_size_bound_witness :
  GET demo_db demo_now demo_q (Ok200 demo_body) ∧
  Z.of_nat (length (Body.users demo_body)) ≤ 2.
Proof.
  split; [exact demo_GET|].
  exact (proj1 (page_size_bound demo_db demo_now demo_q demo_body demo_GET)).
Defined.

(** With keys and at most one satellite row per profile, a page holds
    [min limit (totalCount - offset)] rows: none past the last page, and
    [limit] of them whenever [hasNextPage] is set. *)
Theorem page_length db now q body :
  primary_keys db → at_most_one_satellite db →
  GET db now q (Ok200 body) →
  let pg := Body.pagination body in
  let offset := (Pagination.page pg - 1) * Pagination.limit pg in
  Z.of_nat (length (Body.users body)) =
    Z.max 0 (Z.min (Pagination.limit pg) (Pagination.totalCount pg - offset)) ∧
  (Pagination.page pg > Pagination.totalPages pg → Body.users body = []) ∧
  (Pagination.hasNextPage pg = true →
   Z.of_nat (length (Body.users body)) = Pagination.limit pg).
Proof.
  intros Hpk Hone (page & limit & sorted & Hp & Hl & [Hperm _] & ->)%GET_ok_inv.
  destruct (parse_params_ranges q page limit Hp Hl) as [? [? ?]].
  assert (Hlen : Z.of_nat (length sorted) = countQuery db (SearchParams.division q)).
  { rewrite Hperm, (countQuery_matching db (proj2 Hone)), (selected_unique db now Hpk Hone).
    by rewrite length_fmap. }
  pose proof (Math_ceil_div_spec (countQuery db (SearchParams.division q)) limit
                ltac:(lia)) as [Hlow Hhigh].
  assert (Hsize : Z.of_nat (length (to_user <$>
                    limit_offset limit ((page - 1) * limit) sorted)) =
                  Z.max 0 (Z.min limit
                    (countQuery db (SearchParams.division q) - (page - 1) * limit))).
  { unfold limit_offset. rewrite length_fmap, length_take, length_drop. nia. }
  simpl. split; [exact Hsize|]. split.
  - intros Hpast. apply nil_length_inv.
    apply Nat2Z.inj. rewrite Hsize. nia.
  - intros Hnext%bool_decide_eq_true. rewrite Hsize. nia.
Qed.

Lemma page_length_witness :
  primary_keys demo_db ∧ at_most_one_satellite demo_db ∧
  GET demo_db demo_now demo_q_page2 (Ok200 demo_body_page2) ∧
  Pagination.hasNextPage (Body.pagination demo_body_page2) = false ∧
  Z.of_nat (length (Body.users demo_body_page2)) = 1.
Proof.
  assert (Hpk : primary_keys demo_db) by by_computation.
  assert (Hone : at_most_one_satellite demo_db) by by_computation.
  assert (HGET : GET demo_db demo_now demo_q_page2 (Ok200 demo_body_page2))
    by by_execution.
  split; [exact Hpk|]. split; [exact Hone|]. split; [exact HGET|].
  split; [reflexivity|].
  exact (proj1 (page_length demo_db demo_now demo_q_page2 demo_body_page2
                  Hpk Hone HGET)).
Defined.

(** ** The filter *)

(** With a filter other than [all], every returned record belongs to the
    division the filter names. The response labels the filter by its text,
    except that the empty text is labelled [all] although its rows are those
    of the division with the empty name. *)
Theorem filter_selects_division db now q (f : string) body U :
  SearchParams.division q = Some f →
  f ≠ "all" →
  GET db now q (Ok200 body) →
  U ∈ Body.users body →
  User.division U = Some f ∧
  Body.filteredBy body = (if decide (f = "") then "all" else f).
Proof.
  intros Hf Hall HGET HU.
  destruct (elem_of_users_body _ _ _ _ _ HGET HU) as (j & Hj & Hw & ->).
  apply GET_ok_inv in HGET as (page & limit & sorted & _ & _ & _ & ->).
  rewrite Hf in *. simpl. split; [|done].
  apply division_predicate_holds in Hw as [?|[[= ?]|[Hdn _]]]; done.
Qed.

Lemma filter_selects_division_witness :
  SearchParams.division demo_q = Some "Tech" ∧ "Tech" ≠ "all" ∧
  GET demo_db demo_now demo_q (Ok200 demo_body) ∧
  demo_bob ∈ Body.users demo_body ∧
  User.division demo_bob = Some "Tech" ∧
  Body.filteredBy demo_body = "Tech".
Proof.
  assert (Hall : "Tech" ≠ "all") by discriminate.
  split; [reflexivity|]. split; [exact Hall|]. split; [exact demo_GET|].
  split; [exact demo_bob_listed|].
  exact (filter_selects_division demo_db demo_now demo_q "Tech" demo_body demo_bob
           eq_refl Hall demo_GET demo_bob_listed).
Defined.

(** ** The activity aggregates *)

Lemma user_aggregates_row db now ua :
  ua ∈ user_aggregates db now →
  let g := filter (λ ul, UserLogs.user_id ul = Agg.user_id ua) (user_logs db) in
  Agg.log_count ua = COUNT g ∧
  Agg.login_count ua = COUNT_FILTER (λ ul, UserLogs.action ul = "login") g ∧
  Agg.update_count ua = COUNT_FILTER (λ ul, UserLogs.action ul = "update_profile") g ∧
  Agg.recent_logs ua =
    COUNT_FILTER (λ ul, UserLogs.created_at ul > now - thirty_days) g.
Proof.
  unfold user_aggregates. by intros (uid & -> & _)%list_elem_of_fmap.
Qed.

Lemma user_aggregates_covers db now ul :
  ul ∈ user_logs db →
  ∃ ua, ua ∈ user_aggregates db now ∧ Agg.user_id ua = UserLogs.user_id ul.
Proof.
  intros Hul.
  assert (UserLogs.user_id ul ∈ Agg.user_id <$> user_aggregates db now) as Hin.
  { rewrite user_aggregates_keys, elem_of_remove_dups.
    apply list_elem_of_fmap. eauto. }
  apply list_elem_of_fmap in Hin as (ua & Heq & Hua). eauto.
Qed.

(** The four aggregate columns of a joined row, whether or not the profile
    has a row in [user_aggregates]. *)
Lemma row_aggregates db now j :
  j ∈ from_clause db now →
  let r := select_list now j in
  let g := filter (λ ul, UserLogs.user_id ul = Users.id (J.u j)) (user_logs db) in
  Row.log_count r = COUNT g ∧
  Row.login_count r = COUNT_FILTER (λ ul, UserLogs.action ul = "login") g ∧
  Row.update_count r = COUNT_FILTER (λ ul, UserLogs.action ul = "update_profile") g ∧
  Row.recent_logs r = COUNT_FILTER (λ ul, UserLogs.created_at ul > now - thirty_days) g.
Proof.
  intros (_ & _ & _ & _ & Hua & _)%elem_of_from_clause. simpl.
  apply elem_of_left_matches in Hua as [[Hnil ->]|(ua & -> & Hua)].
  - assert (filter (λ ul, UserLogs.user_id ul = Users.id (J.u j)) (user_logs db) = [])
      as ->; [|done].
    apply elem_of_nil_inv. intros ul [Hid Hul]%list_elem_of_filter.
    destruct (user_aggregates_covers db now ul Hul) as (ua & Hua & Hkey).
    assert (ua ∈ filter (λ ua, Users.id (J.u j) = Agg.user_id ua)
                        (user_aggregates db now)) as Hin
      by (apply list_elem_of_filter; split; [congruence | done]).
    rewrite Hnil in Hin. by apply elem_of_nil in Hin.
  - apply list_elem_of_filter in Hua as [-> Hua]. simpl.
    by apply user_aggregates_row.
Qed.

(** On every returned record the grouped aggregates are the counts the
    legacy handler computed with one subquery per row: all log rows of the
    profile, those with action [login], those with action [update_profile];
    [recentLogs] counts the profile's log rows of the last thirty days. *)
Theorem aggregates_are_counts db now q body U :
  GET db now q (Ok200 body) →
  U ∈ Body.users body →
  ∃ u, u ∈ users db ∧ Users.id u = User.id U ∧
       User.logCount U = legacy_log_count db u ∧
       User.loginCount U = legacy_login_count db u ∧
       User.updateCount U = legacy_update_count db u ∧
       User.recentLogs U =
         COUNT (filter (λ ul, UserLogs.created_at ul > now - thirty_days ∧
                              UserLogs.user_id ul = Users.id u)
                       (user_logs db)).
Proof.
  intros HGET HU.
  destruct (elem_of_users_body _ _ _ _ _ HGET HU) as (j & Hj & _ & ->).
  destruct (row_aggregates db now j Hj) as (Hlog & Hlogin & Hupdate & Hrecent).
  exists (J.u j). split; [by apply elem_of_from_clause in Hj as [? _]|].
  split; [done|].
  unfold legacy_log_count, legacy_login_count, legacy_update_count, COUNT.
  rewrite <- !list_filter_filter.
  change (User.logCount (to_user (select_list now j)))
    with (Row.log_count (select_list now j)).
  change (User.loginCount (to_user (select_list now j)))
    with (Row.login_count (select_list now j)).
  change (User.updateCount (to_user (select_list now j)))
    with (Row.update_count (select_list now j)).
  change (User.recentLogs (to_user (select_list now j)))
    with (Row.recent_logs (select_list now j)).
  by rewrite Hlog, Hlogin, Hupdate, Hrecent.
Qed.

Lemma aggregates_are_counts_witness :
  GET demo_db demo_now demo_q (Ok200 demo_body) ∧
  demo_ann ∈ Body.users demo_body ∧
  User.logCount demo_ann = 2 ∧
  ∃ u, u ∈ users demo_db ∧ Users.id u = User.id demo_ann ∧
       User.logCount demo_ann = legacy_log_count demo_db u ∧
       User.loginCount demo_ann = legacy_login_count demo_db u.
Proof.
  assert (HU : demo_ann ∈ Body.users demo_body)
    by (apply list_elem_of_further, list_elem_of_here).
  split; [exact demo_GET|]. split; [exact HU|]. split; [reflexivity|].
  destruct (aggregates_are_counts demo_db demo_now demo_q demo_body demo_ann
              demo_GET HU) as (u & Hu & Hid & Hlog & Hlogin & _).
  exists u. split; [exact Hu|]. split; [exact Hid|].
  split; [exact Hlog | exact Hlogin].
Defined.

Lemma length_filter_exclusive {A} (P Q : A → Prop)
    `{∀ x, Decision (P x)} `{∀ x, Decision (Q x)} (l : list A) :
  (∀ x, P x → Q x → False) →
  (length (filter P l) + length (filter Q l) ≤ length l)%nat.
Proof.
  intros Hex. induction l as [|x l IH]; [done|].
  rewrite !filter_cons.
  destruct (decide (P x)) as [HP|HP], (decide (Q x)) as [HQ|HQ]; simpl;
    [destruct (Hex x HP HQ) | lia..].
Qed.

(** The aggregates of a record are consistent with each other: none is
    negative, logins and profile updates together do not exceed the log
    count, and neither do the recent logs. *)
Theorem aggregates_consistent db now q body U :
  GET db now q (Ok200 body) →
  U ∈ Body.users body →
  0 ≤ User.loginCount U ∧ 0 ≤ User.updateCount U ∧ 0 ≤ User.recentLogs U ∧
  User.loginCount U + User.updateCount U ≤ User.logCount U ∧
  User.recentLogs U ≤ User.logCount U.
Proof.
  intros HGET HU.
  destruct (elem_of_users_body _ _ _ _ _ HGET HU) as (j & Hj & _ & ->).
  destruct (row_aggregates db now j Hj) as (Hlog & Hlogin & Hupdate & Hrecent).
  change (User.logCount (to_user (select_list now j)))
    with (Row.log_count (select_list now j)).
  change (User.loginCount (to_user (select_list now j)))
    with (Row.login_count (select_list now j)).
  change (User.updateCount (to_user (select_list now j)))
    with (Row.update_count (select_list now j)).
  change (User.recentLogs (to_user (select_list now j)))
    with (Row.recent_logs (select_list now j)).
  rewrite Hlog, Hlogin, Hupdate, Hrecent. unfold COUNT_FILTER, COUNT.
  set (g := filter (λ ul, UserLogs.user_id ul = Users.id (J.u j)) (user_logs db)).
  pose proof (length_filter_exclusive
    (λ ul, UserLogs.action ul = "login")
    (λ ul, UserLogs.action ul = "update_profile") g) as Hex.
  pose proof (length_filter (λ ul, UserLogs.created_at ul > now - thirty_days) g).
  assert (∀ ul, UserLogs.action ul = "login" →
                UserLogs.action ul = "update_profile" → False) as Hdisj
    by (intros ul -> [=]).
  specialize (Hex Hdisj). lia.
Qed.

Lemma aggregates_consistent_witness :
  GET demo_db demo_now demo_q (Ok200 demo_body) ∧
  demo_ann ∈ Body.users demo_body ∧
  User.loginCount demo_ann + User.updateCount demo_ann ≤ User.logCount demo_ann.
Proof.
  assert (HU : demo_ann ∈ Body.users demo_body)
    by (apply list_elem_of_further, list_elem_of_here).
  split; [exact demo_GET|]. split; [exact HU|].
  destruct (aggregates_consistent demo_db demo_now demo_q demo_body demo_ann
              demo_GET HU) as (_ & _ & _ & Hsum & _).
  exact Hsum.
Defined.

(** ** Flags and ranks of a record *)

(** [isActive] is set exactly for the profiles with more than five activity
    log rows. *)
Theorem isActive_more_than_five_logs db now q body U :
  GET db now q (Ok200 body) →
  U ∈ Body.users body →
  ∃ u, u ∈ users db ∧ Users.id u = User.id U ∧
       (User.isActive U = true ↔ legacy_log_count db u > 5).
Proof.
  intros HGET HU.
  destruct (elem_of_users_body _ _ _ _ _ HGET HU) as (j & Hj & _ & ->).
  destruct (row_aggregates db now j Hj) as (Hlog & _).
  exists (J.u j). split; [by apply elem_of_from_clause in Hj as [? _]|].
  split; [done|].
  change (User.isActive (to_user (select_list now j)))
    with (bool_decide (Row.log_count (select_list now j) > 5)).
  by rewrite Hlog, bool_decide_eq_true.
Qed.

Lemma isActive_more_than_five_logs_witness :
  GET demo_db demo_now demo_q (Ok200 demo_body) ∧
  demo_ann ∈ Body.users demo_body ∧
  ∃ u, u ∈ users demo_db ∧ Users.id u = User.id demo_ann ∧
       (User.isActive demo_ann = true ↔ legacy_log_count demo_db u > 5).
Proof.
  assert (HU : demo_ann ∈ Body.users demo_body)
    by (apply list_elem_of_further, list_elem_of_here).
  split; [exact demo_GET|]. split; [exact HU|].
  exact (isActive_more_than_five_logs demo_db demo_now demo_q demo_body demo_ann
           demo_GET HU).
Defined.

(** [isSenior] is set exactly for the roles [admin] and [moderator]; a
    record without a role is not senior. *)
Theorem isSenior_admin_or_moderator db now q body U :
  GET db now q (Ok200 body) →
  U ∈ Body.users body →
  (User.isSenior U = true ↔
   User.role U = Some "admin" ∨ User.role U = Some "moderator") ∧
  (User.role U = None → User.isSenior U = false).
Proof.
  intros HGET HU.
  destruct (elem_of_users_body _ _ _ _ _ HGET HU) as (j & _ & _ & ->).
  simpl. destruct (J.ur j ≫= UserRoles.role) as [role|]; simpl.
  - split; [|done].
    destruct (decide (role = "admin")) as [->|Hadmin]; [by split; [left|]|].
    destruct (decide (role = "moderator")) as [->|Hmod]; [by split; [right|]|].
    rewrite !bool_decide_eq_false_2 by done. simpl.
    split; [done | intros [[= ?]|[= ?]]; done].
  - split; [|done]. split; [done | intros [?|?]; done].
Qed.

Lemma isSenior_admin_or_moderator_witness :
  GET demo_db demo_now demo_q (Ok200 demo_body) ∧
  demo_ann ∈ Body.users demo_body ∧
  User.role demo_ann = Some "admin" ∧
  User.isSenior demo_ann = true.
Proof.
  assert (HU : demo_ann ∈ Body.users demo_body)
    by (apply list_elem_of_further, list_elem_of_here).
  split; [exact demo_GET|]. split; [exact HU|]. split; [reflexivity|].
  apply (proj1 (isSenior_admin_or_moderator demo_db demo_now demo_q demo_body
                  demo_ann demo_GET HU)).
  left. reflexivity.
Defined.

Lemma window_count_range db u :
  u ∈ users db → 1 ≤ window_count_created_desc db u ≤ COUNT (users db).
Proof.
  intros Hu. unfold window_count_created_desc, COUNT. split.
  - assert (u ∈ filter (λ v, Users.created_at u ≤ Users.created_at v) (users db))
      as Hin by (apply list_elem_of_filter; split; [lia | done]).
    destruct (filter _ (users db)); [by apply elem_of_nil in Hin | simpl; lia].
  - pose proof (length_filter (λ v, Users.created_at u ≤ Users.created_at v) (users db)).
    lia.
Qed.

(** Every record carries the number of all profiles, whatever the filter,
    and a creation rank that is never null and lies between 0 and that
    number minus one. *)
Theorem totalUsers_and_rank_range db now q body U :
  GET db now q (Ok200 body) →
  U ∈ Body.users body →
  User.totalUsers U = Z.of_nat (length (users db)) ∧
  ∃ rank, User.newerUsers U = Some rank ∧ 0 ≤ rank < User.totalUsers U.
Proof.
  intros HGET HU.
  destruct (elem_of_users_body _ _ _ _ _ HGET HU) as (j & Hj & _ & ->).
  apply elem_of_from_clause in Hj as (Hu & _ & _ & _ & _ & Hucr & Htc).
  simpl. rewrite Htc. split; [done|].
  apply elem_of_left_matches in Hucr as [[Hnil _]|(ucr & -> & Hin)].
  - assert ({| Rank.id := Users.id (J.u j);
               Rank.newer_users := window_count_created_desc db (J.u j) - 1 |}
            ∈ filter (λ ucr, Users.id (J.u j) = Rank.id ucr) (user_creation_rank db))
      as Hin.
    { apply list_elem_of_filter. split; [done|].
      unfold user_creation_rank. apply list_elem_of_fmap. eauto. }
    rewrite Hnil in Hin. by apply elem_of_nil in Hin.
  - apply list_elem_of_filter in Hin as [_ Hin]. unfold user_creation_rank in Hin.
    apply list_elem_of_fmap in Hin as (v & -> & Hv). simpl.
    eexists. split; [done|].
    pose proof (window_count_range db v Hv). lia.
Qed.

Lemma totalUsers_and_rank_range_witness :
  GET demo_db demo_now demo_q (Ok200 demo_body) ∧
  demo_bob ∈ Body.users demo_body ∧
  User.totalUsers demo_bob = 3 ∧
  ∃ rank, User.newerUsers demo_bob = Some rank ∧ 0 ≤ rank < User.totalUsers demo_bob.
Proof.
  split; [exact demo_GET|]. split; [exact demo_bob_listed|].
  exact (totalUsers_and_rank_range demo_db demo_now demo_q demo_body demo_bob
           demo_GET demo_bob_listed).
Defined.

Lemma truthy_string_not_null (v : option string) :
  Z.b2z (truthy_string v) ≤ not_null_int v ∧ (truthy_string v = true → is_Some v).
Proof.
  destruct v as [s|]; simpl; [|done].
  split; [destruct (bool_decide (s ≠ "")); simpl; lia | eauto].
Qed.

Lemma truthy_json_value (v : option json) :
  truthy_json (json_value v) = truthy_json v.
Proof. by destruct v as [[]|]. Qed.

Lemma truthy_json_not_null (v : option json) :
  Z.b2z (truthy_json v) ≤ not_null_int v ∧
  (truthy_json v = true → is_Some (json_value v)).
Proof.
  destruct v as [d|]; [|done].
  split; [destruct (truthy_json (Some d)); simpl; lia|].
  destruct d; simpl; eauto; discriminate.
Qed.

(** The four [has...] flags test truthiness where the completeness score
    tests for null: a set flag means a non-null field, an empty bio clears
    [hasBio] while it still counts for the score, and 25 points per set flag
    never exceed the score. *)
Theorem flags_below_completeness db now q body U :
  GET db now q (Ok200 body) →
  U ∈ Body.users body →
  (User.hasBio U = true → is_Some (User.bio U)) ∧
  (User.hasAddress U = true → is_Some (User.address U)) ∧
  (User.hasPhone U = true → is_Some (User.phoneNumber U)) ∧
  (User.hasProfile U = true → is_Some (User.profileJson U)) ∧
  (User.bio U = Some "" → User.hasBio U = false) ∧
  25 * (Z.b2z (User.hasBio U) + Z.b2z (User.hasAddress U) +
        Z.b2z (User.hasPhone U) + Z.b2z (User.hasProfile U))
    ≤ User.profileCompleteness U.
Proof.
  intros HGET HU.
  destruct (elem_of_users_body _ _ _ _ _ HGET HU) as (j & _ & _ & ->).
  simpl. rewrite profile_completeness_case_steps, truthy_json_value.
  destruct (truthy_string_not_null (Users.bio (J.u j))) as [? ?].
  destruct (truthy_string_not_null (Users.address (J.u j))) as [? ?].
  destruct (truthy_string_not_null (Users.phone_number (J.u j))) as [? ?].
  destruct (truthy_json_not_null (Users.profile_json (J.u j))) as [? ?].
  repeat (split; [done|]). split; [by intros ->|]. lia.
Qed.

Lemma flags_below_completeness_witness :
  GET demo_db demo_now demo_q (Ok200 demo_body) ∧
  demo_bob ∈ Body.users demo_body ∧
  User.bio demo_bob = Some "" ∧
  User.hasBio demo_bob = false ∧
  User.profileCompleteness demo_bob = 25.
Proof.
  split; [exact demo_GET|]. split; [exact demo_bob_listed|].
  split; [reflexivity|].
  destruct (flags_below_completeness demo_db demo_now demo_q demo_body demo_bob
              demo_GET demo_bob_listed) as (_ & _ & _ & _ & Hbio & _).
  split; [exact (Hbio eq_refl) | reflexivity].
Defined.

(** [daysSinceCreated] is the number of whole days between the creation
    time and the time of the request. *)
Theorem daysSinceCreated_whole_days db now q body U :
  GET db now q (Ok200 body) →
  U ∈ Body.users body →
  User.createdAt U ≤ now →
  0 ≤ User.daysSinceCreated U ∧
  86400 * User.daysSinceCreated U ≤ now - User.createdAt U
    < 86400 * (User.daysSinceCreated U + 1).
Proof.
  intros HGET HU.
  destruct (elem_of_users_body _ _ _ _ _ HGET HU) as (j & _ & _ & ->).
  simpl. intros Hpast.
  rewrite Z.quot_div_nonneg by lia.
  pose proof (Z.div_mod (now - Users.created_at (J.u j)) 86400 ltac:(lia)).
  pose proof (Z.mod_pos_bound (now - Users.created_at (J.u j)) 86400 ltac:(lia)).
  pose proof (Z.div_pos (now - Users.created_at (J.u j)) 86400 ltac:(lia) ltac:(lia)).
  lia.
Qed.

Lemma daysSinceCreated_whole_days_witness :
  GET demo_db (demo_now + 864000) demo_q (Ok200 later_body) ∧
  later_bob ∈ Body.users later_body ∧
  User.createdAt later_bob ≤ demo_now + 864000 ∧
  User.daysSinceCreated later_bob = 10 ∧
  86400 * User.daysSinceCreated later_bob
    ≤ demo_now + 864000 - User.createdAt later_bob
    < 86400 * (User.daysSinceCreated later_bob + 1).
Proof.
  assert (HGET : GET demo_db (demo_now + 864000) demo_q (Ok200 later_body))
    by by_execution.
  assert (HU : later_bob ∈ Body.users later_body) by apply list_elem_of_here.
  assert (Hpast : User.createdAt later_bob ≤ demo_now + 864000)
    by (vm_compute; discriminate).
  split; [exact HGET|]. split; [exact HU|]. split; [exact Hpast|].
  split; [reflexivity|].
  exact (proj2 (daysSinceCreated_whole_days demo_db (demo_now + 864000) demo_q
                  later_body later_bob HGET HU Hpast)).
Defined.

Lemma newerUsers_distinct_witness :
  primary_keys demo_db ∧ at_most_one_satellite demo_db ∧
  NoDup (Users.created_at <$> users demo_db) ∧
  GET demo_db demo_now demo_q (Ok200 demo_body) ∧
  demo_bob ∈ Body.users demo_body ∧
  ∃ u, u ∈ users demo_db ∧ Users.id u = User.id demo_bob ∧
       User.newerUsers demo_bob = Some (legacy_newer_users demo_db u).
Proof.
  assert (Hpk : primary_keys demo_db) by by_computation.
  assert (Hone : at_most_one_satellite demo_db) by by_computation.
  assert (Hnd : NoDup (Users.created_at <$> users demo_db)) by by_computation.
  split; [exact Hpk|]. split; [exact Hone|]. split; [exact Hnd|].
  split; [exact demo_GET|]. split; [exact demo_bob_listed|].
  exact (newerUsers_distinct demo_db demo_now demo_q demo_body demo_bob
           Hpk Hone Hnd demo_GET demo_bob_listed).
Defined.

(** ** The projections of the profile document *)

Lemma js_or_truthy (v : option json) (d : json) :
  truthy_json (Some d) = true → truthy_json (Some (js_or v d)) = true.
Proof.
  intros Hd. unfold js_or. destruct v as [x|]; [|done].
  by destruct (truthy_json (Some x)) eqn:Hx.
Qed.

(** The four projections are never falsy. Without a profile document, or
    with one that is not an object, they are the empty object for
    [socialMedia] and [preferences] and the empty array for [skills] and
    [interests]; a member of the document is handed on when it is truthy
    and replaced by the default otherwise. *)
Theorem projections_default (user : Row.t) :
  (truthy_json (Some (socialMedia user)) = true ∧
   truthy_json (Some (preferences user)) = true ∧
   truthy_json (Some (skills user)) = true ∧
   truthy_json (Some (interests user)) = true) ∧
  ((∀ fields, Row.profile_json user ≠ Some (JObj fields)) →
   socialMedia user = JObj [] ∧ preferences user = JObj [] ∧
   skills user = JArr [] ∧ interests user = JArr []) ∧
  (∀ v, profile_member user "skills" = Some v →
        skills user = if truthy_json (Some v) then v else JArr []).
Proof.
  split; [|split].
  - unfold socialMedia, preferences, skills, interests.
    repeat split; by apply js_or_truthy.
  - intros Hobj.
    assert (∀ key, profile_member user key = None) as Hnone.
    { intros key. unfold profile_member.
      destruct (Row.profile_json user) as [[| | | | |fields]|]; try done.
      by destruct (Hobj fields). }
    unfold socialMedia, preferences, skills, interests.
    by rewrite !Hnone.
  - intros v Hv. unfold skills. by rewrite Hv.
Qed.

(** ** The page summary *)

Lemma summarize_snoc users U :
  summarize (users ++ [U]) = summary_step (summarize users) U.
Proof. unfold summarize. by rewrite foldl_snoc. Qed.

Lemma summarize_counters users :
  Summary.activeUsers (summarize users) =
    Z.of_nat (length (filter (λ U, User.isActive U = true) users)) ∧
  Summary.seniorUsers (summarize users) =
    Z.of_nat (length (filter (λ U, User.isSenior U = true) users)) ∧
  Summary.usersWithCompleteProfiles (summarize users) =
    Z.of_nat (length (filter (λ U, User.profileCompleteness U > 75) users)).
Proof.
  induction users as [|U users IH] using rev_ind; [done|].
  rewrite summarize_snoc, !filter_app, !length_app, !filter_cons, !filter_nil.
  cbn [summary_step Summary.activeUsers Summary.seniorUsers
       Summary.usersWithCompleteProfiles].
  destruct IH as (-> & -> & ->).
  destruct (User.isActive U), (User.isSenior U),
    (decide (User.profileCompleteness U > 75)); simpl; repeat split;
    repeat case_decide; simpl; try done; lia.
Qed.

Lemma length_filter_impl {A} (P Q : A → Prop)
    `{∀ x, Decision (P x)} `{∀ x, Decision (Q x)} (l : list A) :
  (∀ x, x ∈ l → P x → Q x) → (length (filter P l) ≤ length (filter Q l))%nat.
Proof.
  induction l as [|x l IH]; [done|]. intros HPQ.
  pose proof (IH (λ y Hy, HPQ y (list_elem_of_further _ _ _ Hy))).
  pose proof (HPQ x (list_elem_of_here _ _)).
  rewrite !filter_cons.
  destruct (decide (P x)), (decide (Q x)); simpl; [lia | tauto | lia | lia].
Qed.

(** The three counters of the summary count the records of the page that
    are active, that are senior, and that have a completeness score of 100;
    a record whose four profile fields are non-null is one of the latter,
    and no counter exceeds the page's limit. *)
Theorem summary_counts_page db now q body :
  GET db now q (Ok200 body) →
  let s := summarize (Body.users body) in
  Summary.activeUsers s =
    Z.of_nat (length (filter (λ U, User.isActive U = true) (Body.users body))) ∧
  Summary.seniorUsers s =
    Z.of_nat (length (filter (λ U, User.isSenior U = true) (Body.users body))) ∧
  Summary.usersWithCompleteProfiles s =
    Z.of_nat (length (filter (λ U, User.profileCompleteness U = 100)
                             (Body.users body))) ∧
  Z.of_nat (length (filter
      (λ U, is_Some (User.bio U) ∧ is_Some (User.address U) ∧
            is_Some (User.phoneNumber U) ∧ is_Some (User.profileJson U))
      (Body.users body))) ≤ Summary.usersWithCompleteProfiles s ∧
  Summary.activeUsers s ≤ Pagination.limit (Body.pagination body) ∧
  Summary.seniorUsers s ≤ Pagination.limit (Body.pagination body) ∧
  Summary.usersWithCompleteProfiles s ≤ Pagination.limit (Body.pagination body).
Proof.
  intros HGET s.
  destruct (summarize_counters (Body.users body)) as (Ha & Hs & Hc).
  assert (Hlen : Z.of_nat (length (Body.users body))
                 ≤ Pagination.limit (Body.pagination body)).
  { pose proof HGET as (page & limit & sorted & Hp & Hl & _ & ->)%GET_ok_inv.
    destruct (parse_params_ranges q page limit Hp Hl) as [_ [? ?]].
    simpl. unfold limit_offset. rewrite length_fmap, length_take. lia. }
  pose proof (length_filter (λ U, User.isActive U = true) (Body.users body)).
  pose proof (length_filter (λ U, User.isSenior U = true) (Body.users body)).
  pose proof (length_filter (λ U, User.profileCompleteness U > 75) (Body.users body)).
  subst s. rewrite Ha, Hs, Hc.
  split; [done|]. split; [done|]. split; [|split; [|lia]].
  - rewrite (list_filter_iff_elem _ (λ U, User.profileCompleteness U = 100)); [done|].
    intros U HU.
    destruct (elem_of_users_body _ _ _ _ _ HGET HU) as (j & _ & _ & ->).
    simpl. rewrite profile_completeness_case_steps.
    destruct (Users.bio (J.u j)), (Users.address (J.u j)),
      (Users.phone_number (J.u j)), (Users.profile_json (J.u j)); simpl; lia.
  - apply inj_le, length_filter_impl. intros U HU.
    destruct (elem_of_users_body _ _ _ _ _ HGET HU) as (j & _ & _ & ->).
    simpl. rewrite profile_completeness_case_steps.
    intros ([? Hb] & [? Had] & [? Hph] & [? Hd]).
    rewrite Hb, Had, Hph.
    destruct (Users.profile_json (J.u j)); [simpl; lia | discriminate].
Qed.

Lemma summary_counts_page_witness :
  GET demo_db demo_now demo_q (Ok200 demo_body) ∧
  Summary.seniorUsers (summarize (Body.users demo_body)) = 1 ∧
  Summary.seniorUsers (summarize (Body.users demo_body)) =
    Z.of_nat (length (filter (λ U, User.isSenior U = true) (Body.users demo_body))).
Proof.
  split; [exact demo_GET|]. split; [reflexivity|].
  destruct (summary_counts_page demo_db demo_now demo_q demo_body demo_GET)
    as (_ & Hs & _).
  exact Hs.
Defined.

Lemma tally_step_other (o : gmap string tally) division (k : string) :
  k ≠ division_key division → tally_step o division !! k = o !! k.
Proof.
  intros Hk. unfold tally_step.
  destruct (o !! division_key division) as [[n|]|];
    repeat case_decide; rewrite ?lookup_insert_ne by done; done.
Qed.

Lemma tally_step_fresh (o : gmap string tally) division :
  division_key division ∉ object_prototype_names →
  o !! division_key division = None →
  tally_step o division !! division_key division = Some (Count 1).
Proof.
  intros Hk Ho. unfold tally_step. rewrite Ho.
  rewrite decide_False by done. apply lookup_insert_eq.
Qed.

Lemma tally_step_count (o : gmap string tally) division n :
  o !! division_key division = Some (Count n) →
  tally_step o division !! division_key division = Some (Count (n + 1)).
Proof. intros Ho. unfold tally_step. rewrite Ho. apply lookup_insert_eq. Qed.

(** When no division of the page is named like a member of
    [Object.prototype], [usersByDivision] maps every key to the number of
    records of the page with that key, and has no entry for a key without
    records; records without a division are counted under the key [null],
    together with those of a division of that name. *)
Theorem usersByDivision_counts (users : list User.t) :
  Forall (λ U, division_key (User.division U) ∉ object_prototype_names) users →
  ∀ k : string,
    Summary.usersByDivision (summarize users) !! k =
      (let n := length (filter (λ U, division_key (User.division U) = k) users) in
       if decide (n = 0%nat) then None else Some (Count (Z.of_nat n))).
Proof.
  induction users as [|U users IH] using rev_ind; [done|].
  intros [Husers HU]%Forall_app k. rewrite Forall_singleton in HU. cbv zeta.
  rewrite summarize_snoc, filter_app, length_app, filter_cons, filter_nil.
  cbn [summary_step Summary.usersByDivision].
  destruct (decide (division_key (User.division U) = k)) as [<-|Hk].
  - pose proof (IH Husers (division_key (User.division U))) as IHk.
    cbv zeta in IHk. simpl length.
    destruct (decide (length (filter
      (λ V, division_key (User.division V) = division_key (User.division U))
      users) = 0%nat)) as [Hzero|Hpos].
    + rewrite (tally_step_fresh _ _ HU IHk), Hzero.
      by rewrite decide_False by lia.
    + rewrite (tally_step_count _ _ _ IHk).
      rewrite decide_False by lia. do 2 f_equal. lia.
  - rewrite tally_step_other by done. rewrite (IH Husers k).
    cbv zeta. simpl. by rewrite Nat.add_0_r.
Qed.

Lemma usersByDivision_counts_witness :
  Forall (λ U, division_key (User.division U) ∉ object_prototype_names)
         (Body.users demo_body) ∧
  Summary.usersByDivision (summarize (Body.users demo_body)) !! "Tech"
    = Some (Count 2) ∧
  Summary.usersByDivision (summarize (Body.users demo_body)) !! "Ops" = None.
Proof.
  assert (Hnames : Forall (λ U, division_key (User.division U)
                                ∉ object_prototype_names) (Body.users demo_body))
    by by_computation.
  split; [exact Hnames|].
  split; [exact (usersByDivision_counts (Body.users demo_body) Hnames "Tech")|].
  exact (usersByDivision_counts (Body.users demo_body) Hnames "Ops").
Defined.

Lemma tally_step_inherited (o : gmap string tally) division :
  division_key division ∈ object_prototype_names →
  o !! division_key division = None ∨ o !! division_key division = Some Text →
  tally_step o division !! division_key division =
    if decide (division_key division = "__proto__")
    then o !! division_key division else Some Text.
Proof.
  intros Hk [Ho|Ho]; unfold tally_step; rewrite Ho.
  - rewrite decide_True by done.
    destruct (decide (division_key division = "__proto__")); [done|].
    apply lookup_insert_eq.
  - rewrite lookup_insert_eq. by destruct (decide _).
Qed.

(** A division named like a member of [Object.prototype] is never counted:
    its entry holds a text instead of a number, and [__proto__] gets no
    entry at all. *)
Theorem usersByDivision_inherited_names (users : list User.t) (k : string) :
  k ∈ object_prototype_names →
  Summary.usersByDivision (summarize users) !! k =
    if decide (k ≠ "__proto__" ∧
               Exists (λ U, division_key (User.division U) = k) users)
    then Some Text else None.
Proof.
  intros Hk. induction users as [|U users IH] using rev_ind.
  { rewrite decide_False; [done|]. by intros [_ ?%Exists_nil]. }
  rewrite summarize_snoc. cbn [summary_step Summary.usersByDivision].
  destruct (decide (division_key (User.division U) = k)) as [Heq|Hne].
  - subst k. rewrite tally_step_inherited; [|done|].
    + destruct (decide (division_key (User.division U) = "__proto__")) as [Hp|Hp].
      * rewrite IH. rewrite !decide_False; [done|tauto..].
      * rewrite decide_True; [done|]. split; [done|].
        apply Exists_app. right. by apply Exists_cons_hd.
    + rewrite IH. destruct (decide _); auto.
  - rewrite tally_step_other by done. rewrite IH.
    apply decide_ext. rewrite Exists_app, Exists_cons, Exists_nil. tauto.
Qed.

Lemma usersByDivision_inherited_names_witness :
  "constructor" ∈ object_prototype_names ∧
  (User.division <$> Body.users odd_divisions_body) = [None; Some "constructor"] ∧
  Summary.usersByDivision (summarize (Body.users odd_divisions_body)) !! "constructor"
    = Some Text.
Proof.
  assert (Hk : "constructor" ∈ object_prototype_names) by apply list_elem_of_here.
  split; [exact Hk|]. split; [reflexivity|].
  exact (usersByDivision_inherited_names (Body.users odd_divisions_body)
           "constructor" Hk).
Defined.

(** * Rows per profile *)

Lemma filter_True_elem {A} (P : A → Prop) `{∀ x, Decision (P x)} (l : list A) :
  (∀ x, x ∈ l → P x) → filter P l = l.
Proof.
  induction l as [|x l IH]; [done|]. intros HP.
  rewrite filter_cons_True by (apply HP; by left).
  f_equal. apply IH. intros y Hy. apply HP. by right.
Qed.

Lemma length_left_matches {B} (ms : list B) :
  length (left_matches ms) = Nat.max 1 (length ms).
Proof. destruct ms as [|m ms]; [done|]. simpl. rewrite length_fmap. lia. Qed.

Lemma length_bind_const {A B} (f : A → list B) (l : list A) (n : nat) :
  (∀ x, x ∈ l → length (f x) = n) → length (l ≫= f) = (length l * n)%nat.
Proof.
  induction l as [|x l IH]; intros Hf; [done|].
  rewrite bind_cons, length_app, (Hf x) by (by left).
  rewrite IH by (intros y Hy; apply Hf; by right). simpl. lia.
Qed.

Lemma length_joins db now u :
  NoDup (Users.id <$> users db) → NoDup (Auth.id <$> auth db) →
  length (joins db now u) =
  (Nat.max 1 (length (filter (λ ur, Users.id u = UserRoles.user_id ur) (user_roles db))) *
   Nat.max 1 (length (filter (λ ud, Users.id u = UserDivisions.user_id ud)
                             (user_divisions db))))%nat.
Proof.
  intros Hid Hauth. unfold joins, total_users_count.
  rewrite (left_matches_unique (λ a, Some (Auth.id a)) (auth db) (Users.auth_id u))
    by (rewrite (list_fmap_compose Auth.id Some); by apply (NoDup_fmap_2 Some)).
  rewrite bind_singleton.
  rewrite (left_matches_unique Agg.user_id (user_aggregates db now) (Users.id u))
    by (rewrite user_aggregates_keys; apply NoDup_remove_dups).
  rewrite (left_matches_unique Rank.id (user_creation_rank db) (Users.id u))
    by (by rewrite user_creation_rank_keys).
  rewrite (length_bind_const _ _
    (Nat.max 1 (length (filter (λ ud, Users.id u = UserDivisions.user_id ud)
                               (user_divisions db))))).
  - by rewrite length_left_matches.
  - intros ur _. rewrite (length_bind_const _ _ 1%nat).
    + rewrite length_left_matches. lia.
    + intros ud _. by rewrite !bind_singleton.
Qed.

Lemma joins_user db now u j : j ∈ joins db now u → J.u j = u.
Proof.
  unfold joins.
  intros (a & (ur & (ud & (ua & (ucr & (tc & Hj & _)%list_elem_of_bind
    & _)%list_elem_of_bind & _)%list_elem_of_bind & _)%list_elem_of_bind
    & _)%list_elem_of_bind & _)%list_elem_of_bind.
  by apply list_elem_of_singleton in Hj as ->.
Qed.

Lemma filter_bind_key {A B} (P : B → Prop) (Q : A → Prop)
    `{∀ y, Decision (P y)} `{∀ x, Decision (Q x)} (f : A → list B) (l : list A) :
  (∀ x y, y ∈ f x → P y ↔ Q x) →
  filter P (l ≫= f) = filter Q l ≫= f.
Proof.
  intros HPQ. induction l as [|x l IH]; [done|].
  rewrite bind_cons, filter_app, IH, filter_cons.
  destruct (decide (Q x)) as [HQ|HQ].
  - rewrite bind_cons. f_equal. apply filter_True_elem.
    intros y Hy. by apply (HPQ x).
  - replace (filter P (f x)) with (@nil B); [done|]. symmetry.
    apply elem_of_nil_inv. intros y [HP Hy]%list_elem_of_filter.
    by apply HQ, (HPQ x y).
Qed.

(** The hard-coded [roleCount] and [divisionCount] hide how often a profile
    is listed: in the complete unfiltered listing a profile has one row per
    pair of a role row and a division row, a missing role or division
    counting as one. *)
Theorem rows_per_profile db now u sorted :
  primary_keys db →
  u ∈ users db →
  order_by_created_at_desc (selected db now None) sorted →
  Z.of_nat (length (filter (λ r, Row.id r = Users.id u) sorted)) =
    Z.max 1 (legacy_role_count db u) * Z.max 1 (legacy_division_count db u) ∧
  Forall (λ r, Row.role_count r = 1 ∧ Row.division_count r = 1) sorted.
Proof.
  intros [Hid Hauth] Hu [Hperm _]. split.
  - rewrite Hperm. unfold selected.
    rewrite (filter_True_elem (λ j, holds (where_clause None j)))
      by (intros j _; apply division_predicate_holds; by left).
    rewrite (filter_fmap_iff _ (λ j, Users.id u = Users.id (J.u j))) by done.
    rewrite length_fmap. unfold from_clause.
    rewrite (filter_bind_key _ (λ u', Users.id u = Users.id u'))
      by (by intros u' j ->%joins_user).
    rewrite (filter_key_NoDup Users.id (users db) u Hid Hu), bind_singleton.
    rewrite (length_joins db now u Hid Hauth).
    unfold legacy_role_count, legacy_division_count, COUNT.
    rewrite (list_filter_iff_elem (λ ur, UserRoles.user_id ur = Users.id u)
               (λ ur, Users.id u = UserRoles.user_id ur)) by done.
    rewrite (list_filter_iff_elem (λ ud, UserDivisions.user_id ud = Users.id u)
               (λ ud, Users.id u = UserDivisions.user_id ud)) by done.
    lia.
  - apply Forall_forall. intros r Hr. rewrite Hperm in Hr.
    by apply elem_of_selected in Hr as (j & _ & _ & ->).
Qed.

Lemma rows_per_profile_witness :
  primary_keys two_roles_db ∧ ann ∈ users two_roles_db ∧
  legacy_role_count two_roles_db ann = 2 ∧
  legacy_division_count two_roles_db ann = 0 ∧
  Z.of_nat (length (filter (λ r, Row.id r = Users.id ann)
                           (merge_sort newest_first (selected two_roles_db demo_now None))))
    = Z.max 1 (legacy_role_count two_roles_db ann) *
      Z.max 1 (legacy_division_count two_roles_db ann).
Proof.
  assert (Hpk : primary_keys two_roles_db) by by_computation.
  assert (Hu : ann ∈ users two_roles_db) by by_membership.
  split; [exact Hpk|]. split; [exact Hu|]. split; [reflexivity|].
  split; [reflexivity|].
  exact (proj1 (rows_per_profile two_roles_db demo_now ann _ Hpk Hu
                  (merge_sort_ordered (selected two_roles_db demo_now None)))).
Defined.

(** * The stand-alone SQL file and the index script *)

Lemma sql_file_where_holds (p1 dn : option string) :
  holds (sql_or (sql_is_null p1) (sql_eq dn p1)) ↔ p1 = None ∨ (dn = p1 ∧ is_Some p1).
Proof.
  unfold sql_is_null, sql_eq. destruct p1 as [f|]; [|simpl; split; [by left | done]].
  rewrite (bool_decide_eq_false_2 (Some f = None)) by done.
  destruct dn as [d|]; simpl.
  - destruct (decide (d = f)) as [->|Hd].
    + rewrite bool_decide_eq_true_2 by done. simpl. split; [eauto | done].
    + rewrite bool_decide_eq_false_2 by done. simpl.
      split; [done|]. intros [?|[? _]]; congruence.
  - split; [done|]. intros [?|[? _]]; congruence.
Qed.

(** The SQL file and the handler select the same joined rows for every
    filter except the word [all]: there the handler selects every row and
    the file only the rows of a division called [all]. *)
Theorem sql_file_differs_on_all db now (p1 : option string) :
  p1 ≠ Some "all" →
  sql_file_selected db now p1 =
    filter (λ j, holds (where_clause p1 j)) (from_clause db now) ∧
  filter (λ j, holds (where_clause (Some "all") j)) (from_clause db now) =
    from_clause db now ∧
  ∀ j, j ∈ sql_file_selected db now (Some "all") →
       J.ud j ≫= UserDivisions.division_name = Some "all".
Proof.
  intros Hall. split; [|split].
  - unfold sql_file_selected.
    apply (list_filter_iff (λ j, holds (sql_file_where p1 j))
                           (λ j, holds (where_clause p1 j))).
    intros j. unfold sql_file_where, where_clause.
    rewrite sql_file_where_holds, division_predicate_holds.
    split; [tauto|]. intros [?|[?|?]]; [tauto | done | tauto].
  - induction (from_clause db now) as [|j l IH]; [done|].
    rewrite filter_cons_True, IH; [done|].
    unfold where_clause. apply division_predicate_holds. tauto.
  - intros j [Hw _]%list_elem_of_filter. unfold sql_file_where in Hw.
    by apply sql_file_where_holds in Hw as [?|[? _]].
Qed.

Lemma sql_file_differs_on_all_witness :
  Some "Tech" ≠ Some "all" ∧
  sql_file_selected demo_db demo_now (Some "Tech") =
    filter (λ j, holds (where_clause (Some "Tech") j)) (from_clause demo_db demo_now) ∧
  length (sql_file_selected demo_db demo_now (Some "all")) = 0%nat ∧
  length (filter (λ j, holds (where_clause (Some "all") j))
                 (from_clause demo_db demo_now)) = 3%nat.
Proof.
  assert (Hall : Some "Tech" ≠ Some "all") by discriminate.
  split; [exact Hall|].
  split; [exact (proj1 (sql_file_differs_on_all demo_db demo_now (Some "Tech") Hall))|].
  split; reflexivity.
Defined.

Lemma division_filter_rows (u : Users.t) (ms : list UserDivisions.t) :
  length (filter (λ r : Users.t * option UserDivisions.t,
            holds (division_predicate (Some "Tech")
                     (r.2 ≫= UserDivisions.division_name)))
          (left_matches ms ≫= λ ud, [ (u, ud) ])) =
  length (filter (λ r : Users.t * UserDivisions.t,
            holds (sql_eq (UserDivisions.division_name r.2) (Some "Tech")))
          (ms ≫= λ ud, [ (u, ud) ])).
Proof.
  assert (∀ dn : option string,
    holds (division_predicate (Some "Tech") dn) ↔ holds (sql_eq dn (Some "Tech")))
    as Hsame.
  { intros dn. unfold division_predicate, sql_is_null, sql_eq.
    rewrite (bool_decide_eq_false_2 (Some "Tech" = None)) by done.
    rewrite (bool_decide_eq_false_2 ("Tech" = "all")) by done.
    destruct dn as [d|]; [|done]. simpl.
    by destruct (bool_decide (d = "Tech")). }
  destruct ms as [|m ms]; [done|].
  change (left_matches (m :: ms)) with (Some <$> (m :: ms)).
  induction (m :: ms) as [|ud l IH]; [done|].
  rewrite fmap_cons, !bind_cons, !filter_app, !length_app, IH. f_equal.
  rewrite !filter_cons, !filter_nil. simpl.
  destruct (decide (holds (division_predicate (Some "Tech")
                             (UserDivisions.division_name ud)))) as [H1|H1],
    (decide (holds (sql_eq (UserDivisions.division_name ud) (Some "Tech"))))
      as [H2|H2]; try done; by apply Hsame in H1 || apply Hsame in H2.
Qed.

(** The index script's test count of the profiles in [Tech] is the
    [totalCount] the handler reports for the filter [Tech]. *)
Theorem division_filter_count_is_totalCount db :
  division_filter_count db = countQuery db (Some "Tech").
Proof.
  unfold division_filter_count, countQuery, count_from, COUNT. f_equal.
  induction (users db) as [|u us IH]; [done|].
  rewrite !bind_cons, !filter_app, !length_app, IH. f_equal.
  symmetry. apply division_filter_rows.
Qed.

(** * The single-profile query *)







(** With keys and at most one satellite row per profile the single-profile
    query has one possible answer, the one a scan in table order gives. *)
Theorem user_by_id_unique db (id : Z) result :
  primary_keys db → at_most_one_satellite db →
  user_by_id db id result →
  result = user_by_id_exec db id.
Proof.
  intros [Hid Hauth] [Hrole Hdiv] (rows & Hperm & ->).
  unfold user_by_id_exec. f_equal.
  assert (user_by_id_from db =
    (λ u, (u,
       head (filter (λ a, Users.auth_id u = Some (Auth.id a)) (auth db)),
       head (filter (λ ur, Users.id u = UserRoles.user_id ur) (user_roles db)),
       head (filter (λ ud, Users.id u = UserDivisions.user_id ud)
                    (user_divisions db)))) <$> users db) as Hfrom.
  { unfold user_by_id_from. apply bind_singletons. intros u.
    rewrite (left_matches_unique (λ a, Some (Auth.id a)) (auth db) (Users.auth_id u))
      by (rewrite (list_fmap_compose Auth.id Some); by apply (NoDup_fmap_2 Some)).
    rewrite bind_singleton.
    rewrite (left_matches_unique UserRoles.user_id (user_roles db) (Users.id u))
      by done.
    rewrite bind_singleton.
    rewrite (left_matches_unique UserDivisions.user_id (user_divisions db)
               (Users.id u)) by done.
    by rewrite bind_singleton. }
  assert (length (user_by_id_rows db id) ≤ 1)%nat as Hlen.
  { unfold user_by_id_rows. rewrite Hfrom, length_fmap.
    rewrite (filter_fmap_iff _ (λ u, id = Users.id u)) by done.
    rewrite length_fmap.
    destruct (filter_key_at_most_one Users.id (users db) id Hid)
      as [->|(x & _ & _ & ->)]; simpl; lia. }
  destruct (user_by_id_rows db id) as [|r [|r' l]]; simpl in Hlen; [| |lia].
  - by apply Permutation_nil_r.
  - by apply Permutation_singleton_r.
Qed.

Lemma user_by_id_unique_witness :
  primary_keys demo_db ∧ at_most_one_satellite demo_db ∧
  user_by_id demo_db 1 (take 1 (reverse (user_by_id_rows demo_db 1))) ∧
  take 1 (reverse (user_by_id_rows demo_db 1)) = user_by_id_exec demo_db 1.
Proof.
  assert (Hpk : primary_keys demo_db) by by_computation.
  assert (Hone : at_most_one_satellite demo_db) by by_computation.
  assert (H : user_by_id demo_db 1 (take 1 (reverse (user_by_id_rows demo_db 1)))).
  { exists (reverse (user_by_id_rows demo_db 1)). split; [|reflexivity].
    apply reverse_Permutation. }
  split; [exact Hpk|]. split; [exact Hone|]. split; [exact H|].
  exact (user_by_id_unique demo_db 1 _ Hpk Hone H).
Defined.

(** * The clean-up script *)

Lemma filter_DELETE_FROM {A} (P : A → Prop) `{∀ x, Decision (P x)} (l : list A) :
  filter P (DELETE_FROM P l) = [].
Proof.
  apply elem_of_nil_inv. unfold DELETE_FROM.
  by intros x [HP [HnP _]%list_elem_of_filter]%list_elem_of_filter.
Qed.

Lemma DELETE_FROM_sublist {A} (P : A → Prop) `{∀ x, Decision (P x)} (l : list A) :
  DELETE_FROM P l `sublist_of` l.
Proof. apply sublist_filter. Qed.

Lemma elem_of_DELETE_FROM {A} (P : A → Prop) `{∀ x, Decision (P x)}
    (l : list A) (x : A) :
  x ∈ DELETE_FROM P l ↔ ¬ P x ∧ x ∈ l.
Proof. unfold DELETE_FROM. by rewrite list_elem_of_filter. Qed.

Lemma holds_sql_eq_Some {A} `{EqDecision A} (a b : option A) (v : A) :
  a = Some v → b = Some v → holds (sql_eq a b).
Proof. intros -> ->. unfold sql_eq, holds. by rewrite bool_decide_eq_true_2. Qed.

Lemma elem_of_spread_set (ids : list Z) (i : Z) : i ∈ spread_set ids ↔ i ∈ ids.
Proof.
  induction ids as [|id ids IH]; [done|]. simpl.
  rewrite !elem_of_cons, list_elem_of_filter, IH.
  destruct (decide (i = id)); tauto.
Qed.

Lemma elem_of_allUserIdsToDelete db (i : Z) :
  i ∈ allUserIdsToDelete db ↔
  ∃ u, u ∈ users db ∧ Users.id u = i ∧ flagged db u.
Proof.
  unfold allUserIdsToDelete, nullUserIds, duplicateUsernameIds, duplicatePhoneIds,
    flagged.
  rewrite elem_of_spread_set, !elem_of_app, !list_elem_of_fmap. split.
  - intros [(u & -> & [? ?]%list_elem_of_filter)
           |[(u & -> & [? ?]%list_elem_of_filter)
            |(u & -> & [? ?]%list_elem_of_filter)]]; exists u; tauto.
  - intros (u & Hu & <- & [?|[?|?]]); [left|right; left|right; right];
      exists u; by rewrite list_elem_of_filter.
Qed.

Lemma allUserIdsToDelete_nil db :
  allUserIdsToDelete db = [] ↔ ∀ u, u ∈ users db → ¬ flagged db u.
Proof.
  split.
  - intros Hnil u Hu Hf.
    assert (Users.id u ∈ allUserIdsToDelete db) as Hin
      by (apply elem_of_allUserIdsToDelete; eauto).
    rewrite Hnil in Hin. by apply elem_of_nil in Hin.
  - intros Hnone. apply elem_of_nil_inv.
    intros i (u & Hu & _ & Hf)%elem_of_allUserIdsToDelete. by apply (Hnone u).
Qed.

Lemma cleanUsersData_nil db : allUserIdsToDelete db = [] → cleanUsersData db = db.
Proof.
  intros Hnil. unfold cleanUsersData.
  destruct (decide _) as [_|Hne]; [done|]. by rewrite Hnil in Hne.
Qed.

Lemma users_cleanUsersData db :
  users (cleanUsersData db) =
  filter (λ u, Users.id u ∉ allUserIdsToDelete db) (users db).
Proof.
  unfold cleanUsersData. destruct (decide _) as [Hnil|Hne]; [|done].
  apply nil_length_inv in Hnil. rewrite Hnil. symmetry. apply filter_True_elem.
  intros u _. apply not_elem_of_nil.
Qed.

Lemma elem_of_users_cleanUsersData db u :
  u ∈ users (cleanUsersData db) ↔
  u ∈ users db ∧
  ∀ u', u' ∈ users db → Users.id u' = Users.id u → ¬ flagged db u'.
Proof.
  rewrite users_cleanUsersData, list_elem_of_filter, elem_of_allUserIdsToDelete.
  split.
  - intros [Hn Hu]. split; [done|]. intros u' Hu' Hid Hf. apply Hn. by exists u'.
  - intros [Hu Hn]. split; [|done]. intros (u' & Hu' & Hid & Hf). by apply (Hn u').
Qed.

Lemma cleanUsersData_not_flagged db u :
  u ∈ users (cleanUsersData db) → ¬ flagged (cleanUsersData db) u.
Proof.
  intros [Hin Hn]%elem_of_users_cleanUsersData.
  specialize (Hn u Hin eq_refl). unfold flagged in *.
  intros [Hnull|[Hd|Hd]]; [tauto| |]; apply Hn; right; [left|right].
  - unfold duplicate_username in *. rewrite Exists_exists in *.
    destruct Hd as (u2 & Hu2 & H). exists u2. split; [|done].
    by apply elem_of_users_cleanUsersData in Hu2 as [? _].
  - unfold duplicate_phone in *. rewrite Exists_exists in *.
    destruct Hd as (u2 & Hu2 & H). exists u2. split; [|done].
    by apply elem_of_users_cleanUsersData in Hu2 as [? _].
Qed.

Lemma cleanUsersData_sublists db :
  users (cleanUsersData db) `sublist_of` users db ∧
  auth (cleanUsersData db) `sublist_of` auth db ∧
  user_roles (cleanUsersData db) `sublist_of` user_roles db ∧
  user_divisions (cleanUsersData db) `sublist_of` user_divisions db ∧
  user_logs (cleanUsersData db) `sublist_of` user_logs db.
Proof.
  unfold cleanUsersData. destruct (decide _) as [_|_]; [done|]. simpl.
  repeat split;
    repeat (etrans; [apply DELETE_FROM_sublist|]); done.
Qed.

(** When no profile has a null critical field or repeats a username or a
    phone number of a profile with a lower id, the script commits without
    changing any table: rows that belong to no profile stay, and the
    integrity check that follows exits with status 1 if there is one. *)
Theorem cleanUsersData_nothing_to_delete db :
  (∀ u, u ∈ users db →
        ¬ has_null_value u ∧ ¬ duplicate_username db u ∧ ¬ duplicate_phone db u) →
  cleanUsersData db = db ∧
  (totalOrphaned db > 0 → verify_exit_code (cleanUsersData db) = 1).
Proof.
  intros Hnone.
  assert (cleanUsersData db = db) as ->.
  { apply cleanUsersData_nil, allUserIdsToDelete_nil. intros u Hu.
    destruct (Hnone u Hu) as (? & ? & ?). unfold flagged. tauto. }
  split; [done|]. intros Hpos. unfold verify_exit_code. by rewrite decide_True.
Qed.

Lemma cleanUsersData_nothing_to_delete_witness :
  (∀ u, u ∈ users orphan_db →
        ¬ has_null_value u ∧ ¬ duplicate_username orphan_db u ∧
        ¬ duplicate_phone orphan_db u) ∧
  totalOrphaned orphan_db = 1 ∧
  cleanUsersData orphan_db = orphan_db ∧
  verify_exit_code (cleanUsersData orphan_db) = 1.
Proof.
  assert (H : ∀ u, u ∈ users orphan_db →
                ¬ has_null_value u ∧ ¬ duplicate_username orphan_db u ∧
                ¬ duplicate_phone orphan_db u).
  { apply Forall_forall. by_computation. }
  split; [exact H|]. split; [reflexivity|].
  destruct (cleanUsersData_nothing_to_delete orphan_db H) as [Hsame Hexit].
  split; [exact Hsame|]. apply Hexit. reflexivity.
Defined.

(** As soon as one profile is selected for deletion, the script leaves no
    role, log, division or auth row without a profile, and the integrity
    check that follows exits with status 0. *)
Theorem cleanUsersData_no_orphans db u :
  u ∈ users db →
  has_null_value u ∨ duplicate_username db u ∨ duplicate_phone db u →
  totalOrphaned (cleanUsersData db) = 0 ∧
  verify_exit_code (cleanUsersData db) = 0.
Proof.
  intros Hu Hf.
  assert (totalOrphaned (cleanUsersData db) = 0) as Hzero.
  { unfold cleanUsersData. destruct (decide _) as [Hnil%nil_length_inv|_].
    - by destruct (proj1 (allUserIdsToDelete_nil db) Hnil u Hu).
    - unfold totalOrphaned, orphaned_roles, orphaned_logs, orphaned_divisions,
        orphaned_auth, COUNT. simpl.
      by rewrite !filter_DELETE_FROM. }
  split; [done|]. unfold verify_exit_code. rewrite Hzero.
  by rewrite decide_False by lia.
Qed.

Lemma cleanUsersData_no_orphans_witness :
  member 3 "cat" "333" None None ∈ users messy_db ∧
  has_null_value (member 3 "cat" "333" None None) ∧
  totalOrphaned messy_db = 2 ∧
  totalOrphaned (cleanUsersData messy_db) = 0 ∧
  verify_exit_code (cleanUsersData messy_db) = 0.
Proof.
  assert (Hu : member 3 "cat" "333" None None ∈ users messy_db) by by_membership.
  assert (Hn : has_null_value (member 3 "cat" "333" None None)) by by_computation.
  split; [exact Hu|]. split; [exact Hn|]. split; [reflexivity|].
  exact (cleanUsersData_no_orphans messy_db _ Hu (or_introl Hn)).
Defined.

(** After the script no remaining profile has a null critical field, and
    none repeats the username or the phone number of a remaining profile
    with a lower id; hence the script is idempotent: run on its own result
    it selects nothing and changes nothing. *)
Theorem cleanUsersData_idempotent db :
  (∀ u, u ∈ users (cleanUsersData db) →
        ¬ has_null_value u ∧
        ¬ duplicate_username (cleanUsersData db) u ∧
        ¬ duplicate_phone (cleanUsersData db) u) ∧
  allUserIdsToDelete (cleanUsersData db) = [] ∧
  cleanUsersData (cleanUsersData db) = cleanUsersData db.
Proof.
  assert (allUserIdsToDelete (cleanUsersData db) = []) as Hnil.
  { apply allUserIdsToDelete_nil. intros u. apply cleanUsersData_not_flagged. }
  split; [|split; [done | by apply cleanUsersData_nil]].
  intros u Hu%cleanUsersData_not_flagged. unfold flagged in Hu. tauto.
Qed.

(** When [users.id] is a key, the profiles that remain are exactly those
    that no identifying query returned, in table order. *)
Theorem cleanUsersData_users db :
  NoDup (Users.id <$> users db) →
  users (cleanUsersData db) =
  filter (λ u, ¬ has_null_value u ∧ ¬ duplicate_username db u ∧
               ¬ duplicate_phone db u) (users db).
Proof.
  intros Hid. rewrite users_cleanUsersData. apply list_filter_iff_elem.
  intros u Hu. rewrite elem_of_allUserIdsToDelete. split.
  - intros Hn.
    assert (¬ flagged db u) as Hf by (intros Hf; apply Hn; by exists u).
    unfold flagged in Hf. tauto.
  - intros Hf (u' & Hu' & Hsame & Hf').
    assert (u' = u) as -> by by apply (NoDup_fmap_eq Users.id (users db)).
    unfold flagged in Hf'. tauto.
Qed.

Lemma cleanUsersData_users_witness :
  NoDup (Users.id <$> users messy_db) ∧
  users (cleanUsersData messy_db) =
  filter (λ u, ¬ has_null_value u ∧ ¬ duplicate_username messy_db u ∧
               ¬ duplicate_phone messy_db u) (users messy_db) ∧
  Users.id <$> users (cleanUsersData messy_db) = [1; 6].
Proof.
  assert (H : NoDup (Users.id <$> users messy_db)) by by_computation.
  split; [exact H|]. split; [|reflexivity].
  exact (cleanUsersData_users messy_db H).
Defined.

(** When [users.id] is a key, the remaining profiles have pairwise distinct
    usernames and pairwise distinct phone numbers. *)
Theorem cleanUsersData_unique db :
  NoDup (Users.id <$> users db) →
  NoDup (Users.username <$> users (cleanUsersData db)) ∧
  NoDup (Users.phone_number <$> users (cleanUsersData db)).
Proof.
  intros Hid.
  assert (NoDup (Users.id <$> users (cleanUsersData db))) as Hid'.
  { apply (sublist_NoDup _ _ Hid), fmap_sublist, cleanUsersData_sublists. }
  pose proof (NoDup_fmap_1 _ _ Hid') as Hnd.
  split.
  - apply NoDup_fmap_2_strong; [|done]. intros x y Hx Hy Heq.
    pose proof (cleanUsersData_not_flagged db x Hx) as Hfx.
    pose proof (cleanUsersData_not_flagged db y Hy) as Hfy.
    unfold flagged, has_null_value, duplicate_username in Hfx, Hfy.
    rewrite Exists_exists in Hfx, Hfy.
    destruct (Users.username x) as [n|] eqn:Hnx; [|tauto].
    apply (NoDup_fmap_eq Users.id (users (cleanUsersData db))); [done..|].
    destruct (Z.lt_trichotomy (Users.id x) (Users.id y)) as [Hlt|[?|Hlt]];
      [exfalso|done|exfalso].
    + apply Hfy. right. left. exists x. split; [done|]. split; [|done].
      by apply (holds_sql_eq_Some _ _ n).
    + apply Hfx. right. left. exists y. split; [done|]. split; [|done].
      by apply (holds_sql_eq_Some _ _ n).
  - apply NoDup_fmap_2_strong; [|done]. intros x y Hx Hy Heq.
    pose proof (cleanUsersData_not_flagged db x Hx) as Hfx.
    pose proof (cleanUsersData_not_flagged db y Hy) as Hfy.
    unfold flagged, has_null_value, duplicate_phone in Hfx, Hfy.
    rewrite Exists_exists in Hfx, Hfy.
    destruct (Users.phone_number x) as [n|] eqn:Hnx; [|tauto].
    apply (NoDup_fmap_eq Users.id (users (cleanUsersData db))); [done..|].
    destruct (Z.lt_trichotomy (Users.id x) (Users.id y)) as [Hlt|[?|Hlt]];
      [exfalso|done|exfalso].
    + apply Hfy. right. right. exists x. split; [done|]. split; [|done].
      by apply (holds_sql_eq_Some _ _ n).
    + apply Hfx. right. right. exists y. split; [done|]. split; [|done].
      by apply (holds_sql_eq_Some _ _ n).
Qed.

Lemma cleanUsersData_unique_witness :
  NoDup (Users.id <$> users messy_db) ∧
  ¬ NoDup (Users.username <$> users messy_db) ∧
  NoDup (Users.username <$> users (cleanUsersData messy_db)) ∧
  NoDup (Users.phone_number <$> users (cleanUsersData messy_db)).
Proof.
  assert (H : NoDup (Users.id <$> users messy_db)) by by_computation.
  split; [exact H|]. split; [by_computation|].
  exact (cleanUsersData_unique messy_db H).
Defined.

(** Duplicates are identified before anything is deleted: when the profile
    with the lowest id among those of a username has a null critical field,
    no profile with that username remains. *)
Theorem cleanUsersData_drops_username db u1 (name : string) :
  u1 ∈ users db → has_null_value u1 → Users.username u1 = Some name →
  (∀ u, u ∈ users db → Users.username u = Some name → Users.id u1 ≤ Users.id u) →
  ∀ u, u ∈ users (cleanUsersData db) → Users.username u ≠ Some name.
Proof.
  intros Hu1 Hnull Hname Hlow u [Hu Hn]%elem_of_users_cleanUsersData Hu_name.
  pose proof (Hlow u Hu Hu_name) as Hle.
  destruct (decide (Users.id u1 = Users.id u)) as [Hsame|Hne].
  - apply (Hn u1 Hu1 Hsame). by left.
  - apply (Hn u Hu eq_refl). right. left.
    unfold duplicate_username. rewrite Exists_exists. exists u1.
    split; [done|]. split; [by apply (holds_sql_eq_Some _ _ name) | lia].
Qed.

Lemma cleanUsersData_drops_username_witness :
  member 3 "cat" "333" None None ∈ users messy_db ∧
  ¬ has_null_value (member 4 "cat" "444" (Some "d") None) ∧
  member 4 "cat" "444" (Some "d") None ∈ users messy_db ∧
  ∀ u, u ∈ users (cleanUsersData messy_db) → Users.username u ≠ Some "cat".
Proof.
  assert (Hu : member 3 "cat" "333" None None ∈ users messy_db) by by_membership.
  assert (Hn : has_null_value (member 3 "cat" "333" None None)) by by_computation.
  assert (Hlow : ∀ u, u ∈ users messy_db → Users.username u = Some "cat" →
                      Users.id (member 3 "cat" "333" None None) ≤ Users.id u).
  { apply (Forall_forall (λ u, Users.username u = Some "cat" → 3 ≤ Users.id u)).
    by_computation. }
  split; [exact Hu|]. split; [by_computation|]. split; [by_membership|].
  exact (cleanUsersData_drops_username messy_db _ "cat" Hu Hn eq_refl Hlow).
Defined.

(** The script only removes rows, and never a row of a profile that
    remains: its role, division and log rows and its auth row are kept. *)
Theorem cleanUsersData_keeps_satellites db u :
  u ∈ users (cleanUsersData db) →
  (∀ a, a ∈ auth db → Users.auth_id u = Some (Auth.id a) →
        a ∈ auth (cleanUsersData db)) ∧
  (∀ r, r ∈ user_roles db → UserRoles.user_id r = Users.id u →
        r ∈ user_roles (cleanUsersData db)) ∧
  (∀ r, r ∈ user_divisions db → UserDivisions.user_id r = Users.id u →
        r ∈ user_divisions (cleanUsersData db)) ∧
  (∀ r, r ∈ user_logs db → UserLogs.user_id r = Users.id u →
        r ∈ user_logs (cleanUsersData db)).
Proof.
  unfold cleanUsersData. destruct (decide _) as [_|_]; [done|]. simpl.
  intros Hu. pose proof Hu as [Hn _]%elem_of_DELETE_FROM.
  assert (Users.id u ∈ Users.id <$>
    DELETE_FROM (λ u, Users.id u ∈ allUserIdsToDelete db) (users db)) as Hkept
    by (apply list_elem_of_fmap; eauto).
  repeat split.
  - intros a Ha Hid. apply elem_of_DELETE_FROM. split; [|done].
    intros Hout. apply Hout. apply list_elem_of_omap. eauto.
  - intros r Hr Hid. rewrite !elem_of_DELETE_FROM, Hid. tauto.
  - intros r Hr Hid. rewrite !elem_of_DELETE_FROM, Hid. tauto.
  - intros r Hr Hid. rewrite !elem_of_DELETE_FROM, Hid. tauto.
Qed.

Lemma cleanUsersData_keeps_satellites_witness :
  member 1 "ann" "111" (Some "a") (Some 10) ∈ users (cleanUsersData messy_db) ∧
  {| Auth.id := 10; Auth.email := Some "ann@example.org" |}
    ∈ auth (cleanUsersData messy_db) ∧
  length (auth (cleanUsersData messy_db)) = 1%nat.
Proof.
  assert (Hu : member 1 "ann" "111" (Some "a") (Some 10)
                 ∈ users (cleanUsersData messy_db)) by by_membership.
  split; [exact Hu|]. split; [|reflexivity].
  apply (proj1 (cleanUsersData_keeps_satellites messy_db _ Hu)); [|reflexivity].
  by_membership.
Defined.

(** The script keeps the keys and the cardinalities the list operation
    relies on. *)
Theorem cleanUsersData_preserves_keys db :
  primary_keys db → at_most_one_satellite db →
  primary_keys (cleanUsersData db) ∧ at_most_one_satellite (cleanUsersData db).
Proof.
  intros [Hid Hauth] [Hrole Hdiv].
  destruct (cleanUsersData_sublists db) as (Hu & Ha & Hr & Hd & _).
  unfold primary_keys, at_most_one_satellite. repeat split.
  - by apply (sublist_NoDup _ _ Hid), fmap_sublist.
  - by apply (sublist_NoDup _ _ Hauth), fmap_sublist.
  - by apply (sublist_NoDup _ _ Hrole), fmap_sublist.
  - by apply (sublist_NoDup _ _ Hdiv), fmap_sublist.
Qed.

Lemma cleanUsersData_preserves_keys_witness :
  primary_keys messy_db ∧ at_most_one_satellite messy_db ∧
  primary_keys (cleanUsersData messy_db) ∧
  at_most_one_satellite (cleanUsersData messy_db).
Proof.
  assert (Hpk : primary_keys messy_db) by by_computation.
  assert (Hone : at_most_one_satellite messy_db) by by_computation.
  split; [exact Hpk|]. split; [exact Hone|].
  exact (cleanUsersData_preserves_keys messy_db Hpk Hone).
Defined.

(** On a database the script has cleaned, every record of the list
    operation has a username, a display name, a bio, an address and a phone
    number, and a completeness of 75 or 100. *)
Theorem listing_after_cleanup db now q body U :
  GET (cleanUsersData db) now q (Ok200 body) →
  U ∈ Body.users body →
  is_Some (User.username U) ∧ is_Some (User.displayName U) ∧
  is_Some (User.bio U) ∧ is_Some (User.address U) ∧
  is_Some (User.phoneNumber U) ∧
  (User.profileCompleteness U = 75 ∨ User.profileCompleteness U = 100).
Proof.
  intros HGET HU.
  destruct (elem_of_users_body _ _ _ _ _ HGET HU) as (j & Hj & _ & ->).
  apply elem_of_from_clause in Hj as (Hu%cleanUsersData_not_flagged & _).
  simpl. rewrite profile_completeness_case_steps.
  unfold flagged, has_null_value in Hu.
  destruct (Users.username (J.u j)) eqn:?, (Users.full_name (J.u j)) eqn:?,
    (Users.bio (J.u j)) eqn:?, (Users.address (J.u j)) eqn:?,
    (Users.phone_number (J.u j)) eqn:?; try tauto.
  repeat (split; [by eexists|]).
  destruct (Users.profile_json (J.u j)); simpl; [by right | by left].
Qed.

Lemma listing_after_cleanup_witness :
  GET (cleanUsersData messy_db) demo_now no_params (Ok200 cleaned_body) ∧
  cleaned_fay ∈ Body.users cleaned_body ∧
  User.bio cleaned_fay = Some "" ∧
  User.hasBio cleaned_fay = false ∧
  User.profileCompleteness cleaned_fay = 75.
Proof.
  assert (HGET : GET (cleanUsersData messy_db) demo_now no_params (Ok200 cleaned_body))
    by by_execution.
  assert (HU : cleaned_fay ∈ Body.users cleaned_body) by (by left).
  split; [exact HGET|]. split; [exact HU|]. split; [reflexivity|].
  split; [reflexivity|].
  destruct (listing_after_cleanup _ _ _ _ _ HGET HU) as (_ & _ & _ & _ & _ & [H|H]);
    [exact H | discriminate H].
Defined.

(** ** The statement-by-statement version *)

Lemma sublist_into_filter {A} (P : A → Prop) `{∀ x, Decision (P x)}
    (l1 l2 : list A) :
  l1 `sublist_of` l2 → (∀ x, x ∈ l1 → P x) → l1 `sublist_of` filter P l2.
Proof.
  induction 1 as [|x l1 l2 Hs IH|x l1 l2 Hs IH]; intros HP.
  - done.
  - rewrite filter_cons_True by (apply HP; by left).
    apply sublist_skip, IH. intros y Hy. apply HP. by right.
  - rewrite filter_cons. destruct (decide (P x)); [apply sublist_cons|]; by apply IH.
Qed.

Lemma duplicate_username_mono db1 db2 u :
  (∀ x, x ∈ users db1 → x ∈ users db2) →
  duplicate_username db1 u → duplicate_username db2 u.
Proof.
  unfold duplicate_username. rewrite !Exists_exists.
  intros Hsub (u2 & Hu2 & H). exists u2. auto.
Qed.

Lemma duplicate_phone_mono db1 db2 u :
  (∀ x, x ∈ users db1 → x ∈ users db2) →
  duplicate_phone db1 u → duplicate_phone db2 u.
Proof.
  unfold duplicate_phone. rewrite !Exists_exists.
  intros Hsub (u2 & Hu2 & H). exists u2. auto.
Qed.

Lemma InPlace_users_messy :
  Users.id <$> users (InPlace.cleanUsersData messy_db) = [1; 4; 6] ∧
  Users.id <$> users (cleanUsersData messy_db) = [1; 6].
Proof. split; reflexivity. Qed.

(** The statement-by-statement version of the script keeps every profile
    the snapshot version keeps, and only profiles of the table; what it
    keeps has no null critical field and repeats no username or phone
    number of a kept profile with a lower id; and it leaves no row without
    a profile, whether or not it deleted a profile. *)
Theorem InPlace_cleanUsersData_compared db :
  users (cleanUsersData db) `sublist_of` users (InPlace.cleanUsersData db) ∧
  users (InPlace.cleanUsersData db) `sublist_of` users db ∧
  (∀ u, u ∈ users (InPlace.cleanUsersData db) →
        ¬ has_null_value u ∧
        ¬ duplicate_username (InPlace.cleanUsersData db) u ∧
        ¬ duplicate_phone (InPlace.cleanUsersData db) u) ∧
  totalOrphaned (InPlace.cleanUsersData db) = 0 ∧
  verify_exit_code (InPlace.cleanUsersData db) = 0.
Proof.
  set (db1 := InPlace.set_users db (DELETE_FROM has_null_value (users db))).
  set (db2 := InPlace.set_users db1 (DELETE_FROM (duplicate_username db1) (users db1))).
  set (db3 := InPlace.set_users db2 (DELETE_FROM (duplicate_phone db2) (users db2))).
  assert (users (InPlace.cleanUsersData db) = users db3) as Husers by done.
  assert (∀ x, x ∈ users db1 → x ∈ users db) as H1.
  { intros x Hx. by apply elem_of_DELETE_FROM in Hx as [_ ?]. }
  assert (∀ x, x ∈ users db2 → x ∈ users db1) as H2.
  { intros x Hx. by apply elem_of_DELETE_FROM in Hx as [_ ?]. }
  assert (∀ x, x ∈ users db3 → x ∈ users db2) as H3.
  { intros x Hx. by apply elem_of_DELETE_FROM in Hx as [_ ?]. }
  assert (totalOrphaned (InPlace.cleanUsersData db) = 0) as Hzero.
  { unfold totalOrphaned, orphaned_roles, orphaned_logs, orphaned_divisions,
      orphaned_auth, COUNT, InPlace.cleanUsersData. simpl.
    by rewrite !filter_DELETE_FROM. }
  rewrite Husers. split; [|split; [|split; [|split]]].
  - assert (∀ u, u ∈ users (cleanUsersData db) → ¬ flagged db u) as Hkept.
    { intros u [Hu Hn]%elem_of_users_cleanUsersData. by apply (Hn u). }
    unfold flagged in Hkept.
    apply sublist_into_filter; [apply sublist_into_filter;
      [apply sublist_into_filter; [apply cleanUsersData_sublists|]|]|].
    + intros u Hu. specialize (Hkept u Hu). tauto.
    + intros u Hu Hd. specialize (Hkept u Hu).
      apply (duplicate_username_mono db1 db) in Hd; [tauto | done].
    + intros u Hu Hd. specialize (Hkept u Hu).
      apply (duplicate_phone_mono db2 db) in Hd; [tauto | auto].
  - repeat (etrans; [apply DELETE_FROM_sublist|]). done.
  - intros u Hu. pose proof Hu as [Hp Hu2]%elem_of_DELETE_FROM.
    pose proof Hu2 as [Hn Hu1]%elem_of_DELETE_FROM.
    apply elem_of_DELETE_FROM in Hu1 as [Hnull _].
    split; [done|]. split.
    + intros Hd. apply Hn. revert Hd. apply duplicate_username_mono.
      rewrite Husers. auto.
    + intros Hd. apply Hp. revert Hd. apply duplicate_phone_mono.
      rewrite Husers. auto.
  - done.
  - unfold verify_exit_code. rewrite Hzero. by rewrite decide_False by lia.
Qed.
